(** * The GCE manager of the cluster autoscaler

    A shallow embedding of
    [cluster-autoscaler/cloudprovider/gce/gce_manager.go]: the registry of
    managed instance groups (MIGs), the instance-to-MIG cache and its
    regeneration, the operation poller, instance deletion and the discovery
    of node pools.

    The manager is a mutable object that talks to the cloud; it is modelled
    by explicit state passing over a [World] that holds the manager, the
    chronological list of requests sent to the collaborators, a clock and
    the warnings and errors written to the log.  What the collaborators
    answer is given by a [Cloud]: one function per API call, indexed by the
    number of requests issued before it, so that the cloud may answer the
    same request differently over time.  The two mutexes are not modelled:
    the embedding is sequential. *)

From stdpp Require Import gmap strings list.
From Stdlib Require Import ZArith NArith Lia.

Local Open Scope string_scope.
Local Open Scope list_scope.

(** ** Go strings *)

Module Strings.

(** [strings.HasPrefix s prefix] *)
Fixpoint HasPrefix (s prefix : string) : bool :=
  match prefix with
  | EmptyString => true
  | String c prefix' =>
      match s with
      | EmptyString => false
      | String d s' => if Ascii.eqb c d then HasPrefix s' prefix' else false
      end
  end.

(** [strings.Contains s substr] *)
Fixpoint Contains (s substr : string) : bool :=
  HasPrefix s substr ||
  match s with
  | EmptyString => false
  | String _ s' => Contains s' substr
  end.

End Strings.

(** ** Data of the package *)

(** [GcpCloudProviderMode] *)
Inductive GcpCloudProviderMode := ModeGCE | ModeGKE.

Definition operationWaitTimeout : N := 5 * 1000000000.
Definition operationPollInterval : N := 100 * 1000000.
Definition nodeAutoprovisioningPrefix : string := "nodeautoprovisioning".

(** [GceRef]: project, zone and name of a resource; a comparable struct,
    used as the key of the cache. *)
Record GceRef := { Project : string; Zone : string; Name : string }.

#[global] Instance GceRef_eq_dec : EqDecision GceRef.
Proof. solve_decision. Defined.

#[global] Instance GceRef_countable : Countable GceRef :=
  inj_countable'
    (fun r => (Project r, Zone r, Name r))
    (fun t => {| Project := t.1.1; Zone := t.1.2; Name := t.2 |})
    (fun r => match r with Build_GceRef _ _ _ => eq_refl end).

(** Modelled from the spec: the struct [Mig] is declared outside this file;
    its fields are the ones [fetchAllNodePools] assigns.  The back reference
    [gceManager] is left out: the model has one manager. *)
Record Mig := {
  ref : GceRef;
  minSize : Z;
  maxSize : Z;
  exist : bool;
  autoprovisioned : bool
}.

(** A non-nil [*Mig]: the address of the object and the object it points
    to.  No code of this file writes to a [Mig] after it is built, so a
    pointer may carry its pointee.  Go compares pointers by address. *)
Record MigPtr := { addr : nat; deref : Mig }.

(** [p == q] on [*Mig], [None] being nil. *)
Definition ptr_eqb (p q : option MigPtr) : bool :=
  match p, q with
  | None, None => true
  | Some a, Some b => Nat.eqb (addr a) (addr b)
  | _, _ => false
  end.

(** [migInformation].  The registry [m.migs] is a slice of pointers to such
    structs, and no pointer to a registry struct leaves the manager
    ([getMigs] returns copies), so the registry is a list of values. *)
Record migInformation := { config : MigPtr; basename : string }.

(** [GceManager], without the service handles (they are the [Cloud]) and
    the mutexes. *)
Record GceManager := {
  migs : list migInformation;
  migCache : gmap GceRef MigPtr;
  zone : string;
  projectId : string;
  clusterName : string;
  mode : GcpCloudProviderMode
}.

(** ** The collaborators *)

Module gke.
Record NodePoolAutoscaling := {
  Enabled : bool;
  MinNodeCount : Z;
  MaxNodeCount : Z
}.
Record NodePool := {
  Name : string;
  Autoscaling : option NodePoolAutoscaling;
  InstanceGroupUrls : list string
}.
End gke.

Module gce.
Record Operation := { Name : string; Status : string; TargetLink : string }.
Record InstanceGroupManager := { BaseInstanceName : string; TargetSize : Z }.
Record ManagedInstance := { Instance : string }.
Record InstanceTemplate := { TemplateName : string }.
End gce.

(** A request sent to a collaborator. *)
Inductive Request :=
| NodePoolsList (project zone cluster : string)
| IgmGet (project zone name : string)
| IgmResize (project zone name : string) (size : Z)
| IgmListManagedInstances (project zone name : string)
| IgmDeleteInstances (project zone name : string) (instances : list string)
| ZoneOperationsGet (project zone operation : string)
| GetMigTemplate (mig : GceRef).

(** The requests that change the cloud. *)
Definition mutating (r : Request) : bool :=
  match r with
  | IgmResize _ _ _ _ | IgmDeleteInstances _ _ _ _ => true
  | _ => false
  end.

(** The answers of the cloud.  The first argument of an API function is the
    number of requests issued before this one; an answer is the error text
    of a failed call or its result.  [latency n] is the time the [n]-th
    request takes, [oversleep t] the time a [time.Sleep] started at [t]
    sleeps beyond what was asked, both in nanoseconds. *)
Record Cloud := {
  nodePoolsList : nat -> string -> string -> string -> string + list gke.NodePool;
  igmGet : nat -> string -> string -> string -> string + gce.InstanceGroupManager;
  igmResize : nat -> string -> string -> string -> Z -> string + gce.Operation;
  igmListManagedInstances :
    nat -> string -> string -> string -> string + list gce.ManagedInstance;
  igmDeleteInstances :
    nat -> string -> string -> string -> list string -> string + gce.Operation;
  zoneOperationsGet : nat -> string -> string -> string -> string + gce.Operation;
  getMigTemplate : nat -> MigPtr -> string + gce.InstanceTemplate;
  latency : nat -> N;
  oversleep : N -> N
}.

(** What this file uses of the rest of the package: the URL functions and
    the size bounds of autoprovisioned groups are declared in other files
    and are taken as parameters, and so is [buildNodeFromTemplate], which
    sends no request. *)
Record Package := {
  parseGceUrl : string -> string -> string + (string * string * string);
  ParseInstanceUrl : string -> string + (string * string * string);
  GenerateInstanceUrl : string -> string -> string -> string;
  minAutoprovisionedSize : Z;
  maxAutoprovisionedSize : Z;
  buildNodeFromTemplate : MigPtr -> option gce.InstanceTemplate -> option string
}.

(** ** Errors and the log *)

(** The values of Go's [error] this file returns, by origin. *)
Inductive error :=
| ErrCollaborator (cause : string)
| ErrWrongUrl (cause : string)
| ErrLookingForMig (instance : GceRef) (cause : error)
| ErrNotInAnyMig (instance : GceRef)
| ErrNotSameMig
| ErrOperationTimeout (name target : string).

(** The [glog.Errorf] and [glog.Warningf] lines; the [glog.V(n).Infof] lines
    depend on the verbosity flag and are not modelled. *)
Inductive LogEntry :=
| LogFailedTemplate (name : string)
| LogOperationGetError (name target cause : string).

(** ** The state monad *)

Record World := {
  manager : GceManager;
  calls : list Request;
  clock : N;
  glog : list LogEntry;
  nextAddr : nat
}.

(** How a call ends: it returns, it panics, or the model's fuel ran out. *)
Inductive Outcome (A : Type) :=
| Ret (a : A)
| Panic (msg : string)
| OutOfFuel.
Arguments Ret {A} a.
Arguments Panic {A} msg.
Arguments OutOfFuel {A}.

Definition M (A : Type) : Type := World -> Outcome A * World.

Definition ret {A} (a : A) : M A := fun w => (Ret a, w).

Definition bind {A B} (c : M A) (k : A -> M B) : M B :=
  fun w =>
    match c w with
    | (Ret a, w') => k a w'
    | (Panic msg, w') => (Panic msg, w')
    | (OutOfFuel, w') => (OutOfFuel, w')
    end.

Notation "'let*' x ':=' c 'in' k" := (bind c (fun x => k))
  (at level 10, x pattern, c at level 100, k at level 200).

Definition panic {A} (msg : string) : M A := fun w => (Panic msg, w).

Definition getManager : M GceManager := fun w => (Ret (manager w), w).

Definition setManager (m : GceManager) : M unit :=
  fun w =>
    (Ret tt, {| manager := m; calls := calls w; clock := clock w;
                glog := glog w; nextAddr := nextAddr w |}).

Definition setMigs (l : list migInformation) (m : GceManager) : GceManager :=
  {| migs := l; migCache := migCache m; zone := zone m;
     projectId := projectId m; clusterName := clusterName m; mode := mode m |}.

Definition setMigCache (c : gmap GceRef MigPtr) (m : GceManager) : GceManager :=
  {| migs := migs m; migCache := c; zone := zone m;
     projectId := projectId m; clusterName := clusterName m; mode := mode m |}.

Definition logf (e : LogEntry) : M unit :=
  fun w =>
    (Ret tt, {| manager := manager w; calls := calls w; clock := clock w;
                glog := glog w ++ [e]; nextAddr := nextAddr w |}).

(** [&Mig{...}]: a new object at a fresh address. *)
Definition newMig (v : Mig) : M MigPtr :=
  fun w =>
    (Ret {| addr := nextAddr w; deref := v |},
     {| manager := manager w; calls := calls w; clock := clock w;
        glog := glog w; nextAddr := S (nextAddr w) |}).

(** [time.Now()] and [time.Sleep(d)]; [time.Since(start)] is
    [now - start]. *)
Definition timeNow : M N := fun w => (Ret (clock w), w).

Definition timeSleep (cloud : Cloud) (d : N) : M unit :=
  fun w =>
    (Ret tt, {| manager := manager w; calls := calls w;
                clock := (clock w + d + oversleep cloud (clock w))%N;
                glog := glog w; nextAddr := nextAddr w |}).

(** Sending request [r]: the answer is [answer n] where [n] is the number
    of requests issued before; the request is recorded and takes time. *)
Definition request {A} (cloud : Cloud) (r : Request) (answer : nat -> A) : M A :=
  fun w =>
    let n := length (calls w) in
    (Ret (answer n),
     {| manager := manager w; calls := calls w ++ [r];
        clock := (clock w + latency cloud n)%N;
        glog := glog w; nextAddr := nextAddr w |}).

(** ** The manager *)

Section Manager.

Context (pkg : Package) (cloud : Cloud).

(** [assertGKE] *)
Definition assertGKE : M unit :=
  let* m := getManager in
  match mode m with
  | ModeGKE => ret tt
  | ModeGCE => panic "This should run only in GKE mode"
  end.

(** The loop of [RegisterMig]: every record with the identity of [mig] gets
    [mig] as its config; the flag is [updated]. *)
Fixpoint RegisterMig_loop (mig : MigPtr) (l : list migInformation)
  : list migInformation * bool :=
  match l with
  | [] => ([], false)
  | info :: rest =>
      let '(rest', updated) := RegisterMig_loop mig rest in
      if decide (ref (deref (config info)) = ref (deref mig))
      then ({| config := mig; basename := basename info |} :: rest', true)
      else (info :: rest', updated)
  end.

(** [RegisterMig]; the argument is a non-nil pointer (the code dereferences
    it at once). *)
Definition RegisterMig (mig : MigPtr) : M bool :=
  let* m := getManager in
  let '(l, updated) := RegisterMig_loop mig (migs m) in
  let l' := if updated then l else l ++ [{| config := mig; basename := "" |}] in
  let* _ := setManager (setMigs l' m) in
  let* template :=
    request cloud (GetMigTemplate (ref (deref mig)))
            (fun n => getMigTemplate cloud n mig) in
  let* _ :=
    match template with
    | inl _ => logf (LogFailedTemplate (Name (ref (deref mig))))
    | inr _ => ret tt
    end in
  let template' := match template with inl _ => None | inr t => Some t end in
  let* _ :=
    match buildNodeFromTemplate pkg mig template' with
    | Some _ => logf (LogFailedTemplate (Name (ref (deref mig))))
    | None => ret tt
    end in
  ret (negb updated).

(** The inner loop of [fetchAllNodePools], over the instance group URLs of
    one node pool. *)
Fixpoint fetchAllNodePools_urls (nodePool : gke.NodePool)
    (autoprovisioned autoscaled : bool) (urls : list string) : M (option error) :=
  match urls with
  | [] => ret None
  | igurl :: rest =>
      match parseGceUrl pkg igurl "instanceGroupManagers" with
      | inl err => ret (Some (ErrWrongUrl err))
      | inr (project, zone, name) =>
          let bounds :=
            if autoscaled then
              match gke.Autoscaling nodePool with
              | Some a => (gke.MinNodeCount a, gke.MaxNodeCount a)
              | None => (0%Z, 0%Z)
              end
            else if autoprovisioned then
              (minAutoprovisionedSize pkg, maxAutoprovisionedSize pkg)
            else (0%Z, 0%Z) in
          let* mig :=
            newMig {| ref := {| Project := project; Zone := zone; Name := name |};
                      minSize := bounds.1; maxSize := bounds.2;
                      exist := true; autoprovisioned := autoprovisioned |} in
          let* _ := RegisterMig mig in
          fetchAllNodePools_urls nodePool autoprovisioned autoscaled rest
      end
  end.

(** The two flags [fetchAllNodePools] computes for a node pool.  The first
    is [strings.Contains("name", nodeAutoprovisioningPrefix)], as the code
    has it. *)
Definition pool_autoprovisioned (nodePool : gke.NodePool) : bool :=
  Strings.Contains "name" nodeAutoprovisioningPrefix.

Definition pool_autoscaled (nodePool : gke.NodePool) : bool :=
  match gke.Autoscaling nodePool with
  | Some a => gke.Enabled a
  | None => false
  end.

(** The outer loop of [fetchAllNodePools]. *)
Fixpoint fetchAllNodePools_pools (pools : list gke.NodePool) : M (option error) :=
  match pools with
  | [] => ret None
  | nodePool :: rest =>
      let autoprovisioned := pool_autoprovisioned nodePool in
      let autoscaled := pool_autoscaled nodePool in
      if negb autoprovisioned && negb autoscaled
      then fetchAllNodePools_pools rest
      else
        let* err :=
          fetchAllNodePools_urls nodePool autoprovisioned autoscaled
                                 (gke.InstanceGroupUrls nodePool) in
        match err with
        | Some e => ret (Some e)
        | None => fetchAllNodePools_pools rest
        end
  end.

(** [fetchAllNodePools] *)
Definition fetchAllNodePools : M (option error) :=
  let* _ := assertGKE in
  let* m := getManager in
  let* nodePoolsResponse :=
    request cloud (NodePoolsList (projectId m) (zone m) (clusterName m))
            (fun n => nodePoolsList cloud n (projectId m) (zone m) (clusterName m)) in
  match nodePoolsResponse with
  | inl err => ret (Some (ErrCollaborator err))
  | inr pools => fetchAllNodePools_pools pools
  end.

(** [GetMigSize] *)
Definition GetMigSize (mig : MigPtr) : M (Z * option error) :=
  let r := ref (deref mig) in
  let* igm :=
    request cloud (IgmGet (Project r) (Zone r) (Name r))
            (fun n => igmGet cloud n (Project r) (Zone r) (Name r)) in
  match igm with
  | inl err => ret ((-1)%Z, Some (ErrCollaborator err))
  | inr igm => ret (gce.TargetSize igm, None)
  end.

(** The loop of [waitForOp].  One unit of [fuel] is one test of the loop
    condition; [waitForOp_returns] shows that the fuel [waitForOp] gives
    never runs out. *)
Fixpoint waitForOp_loop (fuel : nat) (start : N) (operation : gce.Operation)
    (project zone : string) : M (option error) :=
  match fuel with
  | O => fun w => (OutOfFuel, w)
  | S fuel' =>
      let* now := timeNow in
      if (now - start <? operationWaitTimeout)%N then
        let* r :=
          request cloud (ZoneOperationsGet project zone (gce.Name operation))
                  (fun n => zoneOperationsGet cloud n project zone
                                              (gce.Name operation)) in
        match r with
        | inr op =>
            if String.eqb (gce.Status op) "DONE" then ret None
            else
              let* _ := timeSleep cloud operationPollInterval in
              waitForOp_loop fuel' start operation project zone
        | inl err =>
            let* _ :=
              logf (LogOperationGetError (gce.Name operation)
                                         (gce.TargetLink operation) err) in
            let* _ := timeSleep cloud operationPollInterval in
            waitForOp_loop fuel' start operation project zone
        end
      else
        ret (Some (ErrOperationTimeout (gce.Name operation)
                                       (gce.TargetLink operation)))
  end.

Definition waitForOp_fuel : nat := 51.

(** [waitForOp] *)
Definition waitForOp (operation : gce.Operation) (project zone : string)
  : M (option error) :=
  let* start := timeNow in
  waitForOp_loop waitForOp_fuel start operation project zone.

(** [SetMigSize] *)
Definition SetMigSize (mig : MigPtr) (size : Z) : M (option error) :=
  let r := ref (deref mig) in
  let* op :=
    request cloud (IgmResize (Project r) (Zone r) (Name r) size)
            (fun n => igmResize cloud n (Project r) (Zone r) (Name r) size) in
  match op with
  | inl err => ret (Some (ErrCollaborator err))
  | inr op => waitForOp op (Project r) (Zone r)
  end.

(** [getMigs]: a new struct for every record of the registry. *)
Definition getMigs : M (list migInformation) :=
  let* m := getManager in
  ret (map (fun mig => {| config := config mig; basename := basename mig |})
           (migs m)).

(** The inner loop of [regenerateCache], over the managed instances of one
    group. *)
Fixpoint regenerateCache_instances (mig : MigPtr)
    (instances : list gce.ManagedInstance) (newMigCache : gmap GceRef MigPtr)
  : error + gmap GceRef MigPtr :=
  match instances with
  | [] => inr newMigCache
  | instance :: rest =>
      match ParseInstanceUrl pkg (gce.Instance instance) with
      | inl err => inl (ErrWrongUrl err)
      | inr (project, zone, name) =>
          regenerateCache_instances mig rest
            (<[ {| Project := project; Zone := zone; Name := name |} := mig ]>
               newMigCache)
      end
  end.

(** The outer loop of [regenerateCache], over the structs [getMigs]
    returned.  It writes the base instance name into these structs; the
    first component of the result is the list of them as the loop leaves
    it, the second the error or the map built. *)
Fixpoint regenerateCache_loop (snapshot : list migInformation)
    (newMigCache : gmap GceRef MigPtr)
  : M (list migInformation * (error + gmap GceRef MigPtr)) :=
  match snapshot with
  | [] => ret ([], inr newMigCache)
  | migInfo :: rest =>
      let mig := config migInfo in
      let r := ref (deref mig) in
      let* instanceGroupManager :=
        request cloud (IgmGet (Project r) (Zone r) (Name r))
                (fun n => igmGet cloud n (Project r) (Zone r) (Name r)) in
      match instanceGroupManager with
      | inl err => ret (migInfo :: rest, inl (ErrCollaborator err))
      | inr igm =>
          let migInfo' :=
            {| config := config migInfo;
               basename := gce.BaseInstanceName igm |} in
          let* instances :=
            request cloud (IgmListManagedInstances (Project r) (Zone r) (Name r))
                    (fun n => igmListManagedInstances cloud n
                                (Project r) (Zone r) (Name r)) in
          match instances with
          | inl err => ret (migInfo' :: rest, inl (ErrCollaborator err))
          | inr instances =>
              match regenerateCache_instances mig instances newMigCache with
              | inl e => ret (migInfo' :: rest, inl e)
              | inr c =>
                  let* (rest', res) := regenerateCache_loop rest c in
                  ret (migInfo' :: rest', res)
              end
          end
      end
  end.

(** [regenerateCache], with the structs of [getMigs] as the loop left them:
    the code drops them when it returns. *)
Definition regenerateCache_snapshot : M (list migInformation * option error) :=
  let* snapshot := getMigs in
  let* (snapshot', res) := regenerateCache_loop snapshot ∅ in
  match res with
  | inl e => ret (snapshot', Some e)
  | inr newMigCache =>
      let* m := getManager in
      let* _ := setManager (setMigCache newMigCache m) in
      ret (snapshot', None)
  end.

(** [regenerateCache] *)
Definition regenerateCache : M (option error) :=
  let* (_, err) := regenerateCache_snapshot in
  ret err.

(** The loop of [GetMigForInstance] over the structs of [getMigs]. *)
Fixpoint GetMigForInstance_loop (instance : GceRef)
    (snapshot : list migInformation) : M (option MigPtr * option error) :=
  match snapshot with
  | [] => ret (None, None)
  | mig :: rest =>
      if String.eqb (Project (ref (deref (config mig)))) (Project instance)
         && String.eqb (Zone (ref (deref (config mig)))) (Zone instance)
         && Strings.HasPrefix (Name instance) (basename mig)
      then
        let* err := regenerateCache in
        match err with
        | Some e => ret (None, Some (ErrLookingForMig instance e))
        | None =>
            let* m := getManager in
            match migCache m !! instance with
            | Some mig => ret (Some mig, None)
            | None => ret (None, Some (ErrNotInAnyMig instance))
            end
        end
      else GetMigForInstance_loop instance rest
  end.

(** [GetMigForInstance]; the argument is a non-nil [*GceRef]. *)
Definition GetMigForInstance (instance : GceRef)
  : M (option MigPtr * option error) :=
  let* m := getManager in
  match migCache m !! instance with
  | Some mig => ret (Some mig, None)
  | None =>
      let* snapshot := getMigs in
      GetMigForInstance_loop instance snapshot
  end.

(** The first loop of [DeleteInstances]. *)
Fixpoint DeleteInstances_check (commonMig : option MigPtr)
    (instances : list GceRef) : M (option error) :=
  match instances with
  | [] => ret None
  | instance :: rest =>
      let* (mig, err) := GetMigForInstance instance in
      match err with
      | Some e => ret (Some e)
      | None =>
          if negb (ptr_eqb mig commonMig) then ret (Some ErrNotSameMig)
          else DeleteInstances_check commonMig rest
      end
  end.

(** [DeleteInstances]; the instances are non-nil pointers.  Reading a field
    through a nil [commonMig] panics. *)
Definition DeleteInstances (instances : list GceRef) : M (option error) :=
  match instances with
  | [] => ret None
  | first :: _ =>
      let* (commonMig, err) := GetMigForInstance first in
      match err with
      | Some e => ret (Some e)
      | None =>
          let* err := DeleteInstances_check commonMig instances in
          match err with
          | Some e => ret (Some e)
          | None =>
              let req :=
                map (fun instance =>
                       GenerateInstanceUrl pkg (Project instance) (Zone instance)
                                           (Name instance)) instances in
              match commonMig with
              | None => panic "invalid memory address or nil pointer dereference"
              | Some common =>
                  let r := ref (deref common) in
                  let* op :=
                    request cloud
                      (IgmDeleteInstances (Project r) (Zone r) (Name r) req)
                      (fun n => igmDeleteInstances cloud n
                                  (Project r) (Zone r) (Name r) req) in
                  match op with
                  | inl err => ret (Some (ErrCollaborator err))
                  | inr op => waitForOp op (Project r) (Zone r)
                  end
              end
          end
      end
  end.

End Manager.

(** ** Sequences of registrations *)

Section Registrations.

Context (pkg : Package) (cloud : Cloud).

(** [RegisterMig] called on each group of a list, in order; the result is
    the list of the values returned. *)
Fixpoint RegisterMigs (ms : list MigPtr) : M (list bool) :=
  match ms with
  | [] => ret []
  | mig :: rest =>
      let* b := RegisterMig pkg cloud mig in
      let* bs := RegisterMigs rest in
      ret (b :: bs)
  end.

End Registrations.

(** The identity of the group a record is about. *)
Definition identity (info : migInformation) : GceRef := ref (deref (config info)).

(** The identities of the registry, in order. *)
Definition identities (l : list migInformation) : list GceRef := identity <$> l.

(** The last group of [ms] with identity [g]. *)
Fixpoint latest (g : GceRef) (ms : list MigPtr) : option MigPtr :=
  match ms with
  | [] => None
  | mig :: rest =>
      match latest g rest with
      | Some x => Some x
      | None => if decide (ref (deref mig) = g) then Some mig else None
      end
  end.

(** What [RegisterMig] does to the registry. *)
Definition registered (mig : MigPtr) (l : list migInformation)
  : list migInformation :=
  if (RegisterMig_loop mig l).2 then (RegisterMig_loop mig l).1
  else (RegisterMig_loop mig l).1 ++ [{| config := mig; basename := "" |}].

(** ** A package and clouds to run the manager on *)

Module Demo.

(** [strings.Split s "/"] *)
Fixpoint splitSlash (s : string) : list string :=
  match s with
  | EmptyString => [EmptyString]
  | String c s' =>
      let r := splitSlash s' in
      if Ascii.eqb c (Ascii.ascii_of_nat 47) then EmptyString :: r
      else match r with
           | h :: t => String c h :: t
           | [] => [String c EmptyString]
           end
  end.

(** Modelled from the spec: [parseGceUrl] is declared outside this file; a
    URL has the format [.../projects/{P}/zones/{Z}/{kind}/{name}] and
    parsing fails when the segments are not these. *)
Definition parseUrl (url expectedResource : string)
  : string + (string * string * string) :=
  match rev (splitSlash url) with
  | name :: kind :: z :: "zones" :: p :: "projects" :: _ =>
      if String.eqb kind expectedResource then inr (p, z, name) else inl url
  | _ => inl url
  end.

(** Modelled from the spec: [GenerateInstanceUrl] is declared outside this
    file; it renders the URL of an instance in the format above. *)
Definition generateUrl (project zone name : string) : string :=
  "https://content.googleapis.com/compute/v1/projects/" +:+ project +:+
  "/zones/" +:+ zone +:+ "/instances/" +:+ name.

Definition package : Package :=
  {| parseGceUrl := parseUrl;
     ParseInstanceUrl := fun url => parseUrl url "instances";
     GenerateInstanceUrl := generateUrl;
     minAutoprovisionedSize := 0;
     maxAutoprovisionedSize := 1000;
     buildNodeFromTemplate :=
       fun _ t => match t with
                  | None => Some "no instance template"
                  | Some _ => None
                  end |}.

(** A manager as [CreateGceManager] builds it: no group, an empty cache. *)
Definition newManager (mode : GcpCloudProviderMode) : GceManager :=
  {| migs := []; migCache := ∅; zone := "z1"; projectId := "p1";
     clusterName := "c1"; mode := mode |}.

Definition newWorld (m : GceManager) : World :=
  {| manager := m; calls := []; clock := 0; glog := []; nextAddr := 100 |}.

(** A cloud in which every call fails. *)
Definition downCloud : Cloud :=
  {| nodePoolsList := fun _ _ _ _ => inl "unavailable";
     igmGet := fun _ _ _ _ => inl "unavailable";
     igmResize := fun _ _ _ _ _ => inl "unavailable";
     igmListManagedInstances := fun _ _ _ _ => inl "unavailable";
     igmDeleteInstances := fun _ _ _ _ _ => inl "unavailable";
     zoneOperationsGet := fun _ _ _ _ => inl "unavailable";
     getMigTemplate := fun _ _ => inl "unavailable";
     latency := fun _ => 1000000%N;
     oversleep := fun _ => 0%N |}.

Definition instanceUrl (name : string) : gce.ManagedInstance :=
  {| gce.Instance := generateUrl "p1" "z1" name |}.

(** A cloud with the groups [g1] (instances [a-1], [a-2], base name [a]) and
    [g2] (instance [b-1], base name [b]); every operation is done at the
    first poll. *)
Definition calmCloud : Cloud :=
  {| nodePoolsList := fun _ _ _ _ => inr [];
     igmGet := fun _ _ _ name =>
       if String.eqb name "g1"
       then inr {| gce.BaseInstanceName := "a"; gce.TargetSize := 2 |}
       else inr {| gce.BaseInstanceName := "b"; gce.TargetSize := 1 |};
     igmResize := fun _ _ _ name _ =>
       inr {| gce.Name := "op-resize"; gce.Status := "PENDING";
              gce.TargetLink := name |};
     igmListManagedInstances := fun _ _ _ name =>
       if String.eqb name "g1" then inr [instanceUrl "a-1"; instanceUrl "a-2"]
       else inr [instanceUrl "b-1"];
     igmDeleteInstances := fun _ _ _ name _ =>
       inr {| gce.Name := "op-delete"; gce.Status := "PENDING";
              gce.TargetLink := name |};
     zoneOperationsGet := fun _ _ _ name =>
       inr {| gce.Name := name; gce.Status := "DONE"; gce.TargetLink := "" |};
     getMigTemplate := fun _ _ => inr {| gce.TemplateName := "t" |};
     latency := fun _ => 1000000%N;
     oversleep := fun _ => 0%N |}.

Definition group (address : nat) (name : string) (lo hi : Z) : MigPtr :=
  {| addr := address;
     deref := {| ref := {| Project := "p1"; Zone := "z1"; Name := name |};
                 minSize := lo; maxSize := hi;
                 exist := true; autoprovisioned := false |} |}.

Definition g1 : MigPtr := group 1 "g1" 1 5.
Definition g2 : MigPtr := group 2 "g2" 0 3.
Definition g1' : MigPtr := group 3 "g1" 2 8.

Definition instance (name : string) : GceRef :=
  {| Project := "p1"; Zone := "z1"; Name := name |}.

(** The registry after [g1] and [g2] were registered with [calmCloud]. *)
Definition twoGroups : World :=
  (RegisterMigs package calmCloud [g1; g2] (newWorld (newManager ModeGCE))).2.

(** A manager whose record of [g1] has the base name [a], with an empty
    cache. *)
Definition namedGroup : World :=
  newWorld (setMigs [{| config := g1; basename := "a" |}] (newManager ModeGCE)).

Definition groupUrl (name : string) : string :=
  "https://content.googleapis.com/compute/v1/projects/p1/zones/z1/" +:+
  "instanceGroupManagers/" +:+ name.

(** The node pools of the discovery scenario: one with autoscaling
    [{min:1, max:5}], one named with the autoprovisioning prefix and with
    autoscaling disabled, one with neither. *)
Definition scaledPool : gke.NodePool :=
  {| gke.Name := "default-pool";
     gke.Autoscaling :=
       Some {| gke.Enabled := true; gke.MinNodeCount := 1;
               gke.MaxNodeCount := 5 |};
     gke.InstanceGroupUrls := [groupUrl "g1"] |}.

Definition provisionedPool : gke.NodePool :=
  {| gke.Name := "nodeautoprovisioning-pool-1";
     gke.Autoscaling :=
       Some {| gke.Enabled := false; gke.MinNodeCount := 0;
               gke.MaxNodeCount := 0 |};
     gke.InstanceGroupUrls := [groupUrl "g2"] |}.

Definition plainPool : gke.NodePool :=
  {| gke.Name := "plain-pool";
     gke.Autoscaling := None;
     gke.InstanceGroupUrls := [groupUrl "g3"] |}.

Definition gkeCloud : Cloud :=
  {| nodePoolsList := fun _ _ _ _ => inr [scaledPool; provisionedPool; plainPool];
     igmGet := igmGet calmCloud;
     igmResize := igmResize calmCloud;
     igmListManagedInstances := igmListManagedInstances calmCloud;
     igmDeleteInstances := igmDeleteInstances calmCloud;
     zoneOperationsGet := zoneOperationsGet calmCloud;
     getMigTemplate := getMigTemplate calmCloud;
     latency := latency calmCloud;
     oversleep := oversleep calmCloud |}.


End Demo.

(** ** Notions used to state the properties *)

(** The world with another manager. *)
Definition withManager (m : GceManager) (w : World) : World :=
  {| manager := m; calls := calls w; clock := clock w; glog := glog w;
     nextAddr := nextAddr w |}.

(** [w'] is [w] after more requests, none of which changes the cloud. *)
Definition no_mutation (w w' : World) : Prop :=
  exists rs, calls w' = calls w ++ rs /\ Forall (fun r => mutating r = false) rs.

(** Whether the answer to request [r], the [n]-th one, makes a scan of
    [regenerateCache] fail: the call fails, or the URL of a listed instance
    does not parse. *)
Definition scan_failed (pkg : Package) (cloud : Cloud) (n : nat) (r : Request)
  : bool :=
  match r with
  | IgmGet p z name =>
      match igmGet cloud n p z name with inl _ => true | inr _ => false end
  | IgmListManagedInstances p z name =>
      match igmListManagedInstances cloud n p z name with
      | inl _ => true
      | inr instances =>
          existsb (fun i => match ParseInstanceUrl pkg (gce.Instance i) with
                            | inl _ => true
                            | inr _ => false
                            end) instances
      end
  | _ => false
  end.

(** Whether one of the requests [rs], issued from the [n]-th on, fails. *)
Fixpoint some_failed (pkg : Package) (cloud : Cloud) (n : nat)
    (rs : list Request) : bool :=
  match rs with
  | [] => false
  | r :: rest => scan_failed pkg cloud n r || some_failed pkg cloud (S n) rest
  end.

(** The test of [GetMigForInstance] on a record: same project, same zone,
    and the base name is a prefix of the name of the instance. *)
Definition candidate (instance : GceRef) (info : migInformation) : bool :=
  String.eqb (Project (identity info)) (Project instance)
  && String.eqb (Zone (identity info)) (Zone instance)
  && Strings.HasPrefix (Name instance) (basename info).

(** Whether the answer to the status request of [waitForOp], sent as the
    [n]-th request, is an operation whose status is "DONE". *)
Definition done_at (cloud : Cloud) (project zone : string)
    (operation : gce.Operation) (n : nat) : bool :=
  match zoneOperationsGet cloud n project zone (gce.Name operation) with
  | inr op => String.eqb (gce.Status op) "DONE"
  | inl _ => false
  end.

(** The lookups of [instances], one after the other from [w] to [w'], all
    return [common] without error. *)
Inductive all_resolve (pkg : Package) (cloud : Cloud) (common : option MigPtr)
  : list GceRef -> World -> World -> Prop :=
| all_resolve_nil w : all_resolve pkg cloud common [] w w
| all_resolve_cons instance rest mig w w1 w2 :
    GetMigForInstance pkg cloud instance w = (Ret (mig, None), w1) ->
    ptr_eqb mig common = true ->
    all_resolve pkg cloud common rest w1 w2 ->
    all_resolve pkg cloud common (instance :: rest) w w2.

(** The URLs [DeleteInstances] puts in its request. *)
Definition instanceUrls (pkg : Package) (instances : list GceRef) : list string :=
  map (fun instance =>
         GenerateInstanceUrl pkg (Project instance) (Zone instance)
                             (Name instance)) instances.

(** The registry after [seen] has been registered: one record per identity,
    the identities are those of [seen], and every record holds the last
    group registered under its identity. *)
Definition registry_of (seen : list MigPtr) (l : list migInformation) : Prop :=
  NoDup (identities l) /\
  (forall g, g ∈ identities l <-> g ∈ (fun mig => ref (deref mig)) <$> seen) /\
  (forall info, info ∈ l -> latest (identity info) seen = Some (config info)).

(** What a run of the loop of [waitForOp] from [w] to [w'] with [k] status
    requests and result [err] satisfies; [start] is when [waitForOp] was
    called. *)
Definition polled (cloud : Cloud) (operation : gce.Operation)
    (project zone : string) (start : N) (w : World) (err : option error)
    (w' : World) (k : nat) : Prop :=
  manager w' = manager w /\
  calls w' =
    calls w ++ replicate k (ZoneOperationsGet project zone (gce.Name operation)) /\
  (clock w <= clock w')%N /\
  (err = None \/
   err = Some (ErrOperationTimeout (gce.Name operation)
                                   (gce.TargetLink operation))) /\
  (err = None <->
   exists i, i < k /\
             done_at cloud project zone operation (length (calls w) + i) = true) /\
  (err <> None -> (operationWaitTimeout <= clock w' - start)%N) /\
  ((clock w - start < operationWaitTimeout)%N ->
   done_at cloud project zone operation (length (calls w)) = true ->
   err = None /\ k = 1) /\
  (forall i cause,
      i < k ->
      zoneOperationsGet cloud (length (calls w) + i) project zone
                        (gce.Name operation) = inl cause ->
      LogOperationGetError (gce.Name operation) (gce.TargetLink operation) cause
        ∈ glog w') /\
  (forall e, e ∈ glog w -> e ∈ glog w').

(** ** The rest of the manager *)

Section ManagerNodes.

Context (pkg : Package) (cloud : Cloud).

(** The loop of [GetMigNodes]: a parse error drops what was collected. *)
Fixpoint GetMigNodes_loop (instances : list gce.ManagedInstance)
    (result : list string) : list string * option error :=
  match instances with
  | [] => (result, None)
  | instance :: rest =>
      match ParseInstanceUrl pkg (gce.Instance instance) with
      | inl err => ([], Some (ErrWrongUrl err))
      | inr (project, zone, name) =>
          GetMigNodes_loop rest
            (result ++ ["gce://" +:+ project +:+ "/" +:+ zone +:+ "/" +:+ name])
      end
  end.

(** [GetMigNodes] *)
Definition GetMigNodes (mig : MigPtr) : M (list string * option error) :=
  let r := ref (deref mig) in
  let* instances :=
    request cloud (IgmListManagedInstances (Project r) (Zone r) (Name r))
            (fun n => igmListManagedInstances cloud n
                        (Project r) (Zone r) (Name r)) in
  match instances with
  | inl err => ret ([], Some (ErrCollaborator err))
  | inr instances => ret (GetMigNodes_loop instances [])
  end.

End ManagerNodes.

(** The metadata server [getProjectAndZone] asks: the answer to
    [metadata.Get(key)] and to [metadata.ProjectID()], an error text or the
    value. *)
Record Metadata := {
  metadataGet : string -> string + string;
  metadataProjectID : string + string
}.

(** The errors of [getProjectAndZone]. *)
Inductive metadataError :=
| MetadataFailed (cause : string)
| UnexpectedResponse (result : string).

(** [getProjectAndZone]: project, zone and error, as the code returns
    them. *)
Definition getProjectAndZone (md : Metadata)
  : string * string * option metadataError :=
  match metadataGet md "instance/zone" with
  | inl err => ("", "", Some (MetadataFailed err))
  | inr result =>
      let parts := Demo.splitSlash result in
      if negb (Nat.eqb (length parts) 4)
      then ("", "", Some (UnexpectedResponse result))
      else
        let zone := nth 3 parts "" in
        match metadataProjectID md with
        | inl err => ("", "", Some (MetadataFailed err))
        | inr projectID => (projectID, zone, None)
        end
  end.

(** [strings.Join parts "/"] *)
Fixpoint joinSlash (parts : list string) : string :=
  match parts with
  | [] => ""
  | [p] => p
  | p :: rest => p +:+ "/" +:+ joinSlash rest
  end.

(** What [RegisterMig] does to a record of the registry. *)
Definition updated (mig : MigPtr) (info : migInformation) : migInformation :=
  if decide (identity info = ref (deref mig))
  then {| config := mig; basename := basename info |}
  else info.

(** The two requests [regenerateCache] sends for a record. *)
Definition scan_requests (info : migInformation) : list Request :=
  [IgmGet (Project (identity info)) (Zone (identity info)) (Name (identity info));
   IgmListManagedInstances (Project (identity info)) (Zone (identity info))
                           (Name (identity info))].

(** The registry after the groups [ms] were registered one after the
    other. *)
Fixpoint registered_all (ms : list MigPtr) (l : list migInformation)
  : list migInformation :=
  match ms with
  | [] => l
  | mig :: rest => registered_all rest (registered mig l)
  end.

(** The group [mig] is one [fetchAllNodePools] builds for [nodePool]: it
    exists, its identity is parsed from one of the instance group URLs of
    the pool, and its bounds are those of the pool when the pool has
    autoscaling enabled. *)
Definition built_from (pkg : Package) (nodePool : gke.NodePool) (mig : MigPtr)
  : Prop :=
  exist (deref mig) = true /\
  (exists url,
      url ∈ gke.InstanceGroupUrls nodePool /\
      parseGceUrl pkg url "instanceGroupManagers" =
        inr (Project (ref (deref mig)), Zone (ref (deref mig)),
             Name (ref (deref mig)))) /\
  (forall a,
      gke.Autoscaling nodePool = Some a ->
      gke.Enabled a = true ->
      minSize (deref mig) = gke.MinNodeCount a /\
      maxSize (deref mig) = gke.MaxNodeCount a).

(** ** More data to run the manager on *)

Module Samples.

(** The record [fetchAllNodePools] makes for the pool [Demo.scaledPool] in
    [Demo.newWorld]. *)
Definition scaledRecord : migInformation :=
  {| config :=
       {| addr := 100;
          deref := {| ref := {| Project := "p1"; Zone := "z1"; Name := "g1" |};
                      minSize := 1; maxSize := 5; exist := true;
                      autoprovisioned := false |} |};
     basename := "" |}.

(** A GKE manager on which nothing was done yet. *)
Definition gkeWorld : World := Demo.newWorld (Demo.newManager ModeGKE).

(** [Demo.twoGroups] after a regeneration of the cache: [a-1] and [a-2]
    belong to [g1], [b-1] to [g2]. *)
Definition cachedWorld : World :=
  (regenerateCache Demo.package Demo.calmCloud Demo.twoGroups).2.


End Samples.

(** The name [GetMigNodes] gives to a managed instance. *)
Definition nodeName (pkg : Package) (inst : gce.ManagedInstance) (name : string)
  : Prop :=
  exists p z n,
    ParseInstanceUrl pkg (gce.Instance inst) = inr (p, z, n) /\
    name = "gce://" +:+ p +:+ "/" +:+ z +:+ "/" +:+ n.

(** Whether a string has no "/". *)
Fixpoint noSlash (s : string) : bool :=
  match s with
  | EmptyString => true
  | String c s' => negb (Ascii.eqb c (Ascii.ascii_of_nat 47)) && noSlash s'
  end.

(** The error [regenerateCache] returns for the first listed instance whose
    URL does not parse, if there is one. *)
Fixpoint first_parse_error (pkg : Package)
    (instances : list gce.ManagedInstance) : option error :=
  match instances with
  | [] => None
  | instance :: rest =>
      match ParseInstanceUrl pkg (gce.Instance instance) with
      | inl cause => Some (ErrWrongUrl cause)
      | inr _ => first_parse_error pkg rest
      end
  end.

(** The error the answer to request [r], the [n]-th one, makes a scan of
    [regenerateCache] return: the error of the failed call, or the error of
    the first URL of a listed instance that does not parse. *)
Definition scan_error (pkg : Package) (cloud : Cloud) (n : nat) (r : Request)
  : option error :=
  match r with
  | IgmGet p z name =>
      match igmGet cloud n p z name with
      | inl cause => Some (ErrCollaborator cause)
      | inr _ => None
      end
  | IgmListManagedInstances p z name =>
      match igmListManagedInstances cloud n p z name with
      | inl cause => Some (ErrCollaborator cause)
      | inr instances => first_parse_error pkg instances
      end
  | _ => None
  end.

(** When [waitForOp], called at time [t] with [n] requests sent before,
    sends its status request number [i] (from 0), if it gets that far: a
    request is followed by a sleep of [operationPollInterval], so the next
    request is sent after the latency of this one, the poll interval and
    what the sleep takes beyond it. *)
Fixpoint poll_time (cloud : Cloud) (n : nat) (t : N) (i : nat) : N :=
  match i with
  | O => t
  | S i' =>
      let sent := poll_time cloud n t i' in
      let answered := (sent + latency cloud (n + i'))%N in
      (answered + operationPollInterval + oversleep cloud answered)%N
  end.

(** * Properties *)

(** ** The registry *)

Section RegistryFacts.

Implicit Types (mig : MigPtr) (l : list migInformation) (g : GceRef).

Lemma RegisterMig_loop_identities mig l :
  identities (RegisterMig_loop mig l).1 = identities l.
Proof.
  induction l as [|info rest IH]; simpl; [done|].
  destruct (RegisterMig_loop mig rest) as [rest' u]; simpl in *.
  case_decide as Heq; simpl; rewrite IH; [|done].
  by unfold identity at 1; simpl; rewrite <- Heq.
Qed.

Lemma RegisterMig_loop_updated mig l :
  (RegisterMig_loop mig l).2 = true <-> ref (deref mig) ∈ identities l.
Proof.
  induction l as [|info rest IH]; simpl.
  - split; [done|]. by intros ?%elem_of_nil.
  - destruct (RegisterMig_loop mig rest) as [rest' u]; simpl in *.
    rewrite elem_of_cons. case_decide as Heq; simpl.
    + split; [|done]. intros _. left. by rewrite <- Heq.
    + rewrite IH. split; [by right|]. intros [He|?]; [|done].
      by destruct Heq.
Qed.

Lemma RegisterMig_loop_records mig l info :
  info ∈ (RegisterMig_loop mig l).1 ->
  (identity info = ref (deref mig) /\ config info = mig) \/
  (identity info <> ref (deref mig) /\ info ∈ l).
Proof.
  induction l as [|x rest IH]; simpl; [by intros ?%elem_of_nil|].
  destruct (RegisterMig_loop mig rest) as [rest' u]; simpl in *.
  case_decide as Heq; simpl; rewrite elem_of_cons; intros [->|Hin].
  - by left.
  - destruct (IH Hin) as [?|[? ?]]; [by left|right].
    split; [done|]. by apply elem_of_cons; right.
  - right. split; [done|]. by apply elem_of_cons; left.
  - destruct (IH Hin) as [?|[? ?]]; [by left|right].
    split; [done|]. by apply elem_of_cons; right.
Qed.

Lemma registered_identities mig l :
  identities (registered mig l) =
  if bool_decide (ref (deref mig) ∈ identities l) then identities l
  else identities l ++ [ref (deref mig)].
Proof.
  unfold registered.
  pose proof (RegisterMig_loop_updated mig l) as Hu.
  destruct (RegisterMig_loop mig l).2 eqn:E.
  - rewrite bool_decide_eq_true_2 by by apply Hu.
    apply RegisterMig_loop_identities.
  - rewrite bool_decide_eq_false_2.
    + unfold identities. rewrite fmap_app. simpl.
      f_equal. apply RegisterMig_loop_identities.
    + intros Hin. apply Hu in Hin. congruence.
Qed.

Lemma registered_records mig l info :
  info ∈ registered mig l ->
  (identity info = ref (deref mig) /\ config info = mig) \/
  (identity info <> ref (deref mig) /\ info ∈ l).
Proof.
  unfold registered.
  destruct (RegisterMig_loop mig l).2.
  - apply RegisterMig_loop_records.
  - rewrite elem_of_app. intros [Hin|Hin].
    + by apply RegisterMig_loop_records.
    + apply list_elem_of_singleton in Hin as ->. by left.
Qed.

Lemma latest_app g ms mig :
  latest g (ms ++ [mig]) =
  if decide (ref (deref mig) = g) then Some mig else latest g ms.
Proof.
  induction ms as [|m rest IH]; simpl.
  - by case_decide.
  - rewrite IH. case_decide; [done|]. done.
Qed.

Lemma latest_None g ms :
  latest g ms = None <-> g ∉ (fun mig => ref (deref mig)) <$> ms.
Proof.
  induction ms as [|m rest IH]; simpl.
  - split; [|done]. intros _ ?%elem_of_nil. done.
  - rewrite not_elem_of_cons, <- IH.
    destruct (latest g rest).
    + split; [done|]. by intros [_ ?].
    + case_decide as Heq.
      * split; [done|]. intros [Hne _]. by destruct Hne.
      * split; [|done]. intros _. split; [congruence|done].
Qed.

End RegistryFacts.

Lemma registry_of_registered seen l mig :
  registry_of seen l -> registry_of (seen ++ [mig]) (registered mig l).
Proof.
  intros (Hnd & Hids & Hlast). repeat split.
  - rewrite registered_identities. case_bool_decide as Hin; [done|].
    apply NoDup_app. split; [done|]. split; [|apply NoDup_singleton].
    intros g Hg Hg'. apply list_elem_of_singleton in Hg'. by subst.
  - rewrite registered_identities, fmap_app, elem_of_app. simpl.
    rewrite list_elem_of_singleton, <- Hids.
    case_bool_decide as Hin; [tauto|].
    rewrite elem_of_app, list_elem_of_singleton. tauto.
  - rewrite registered_identities, fmap_app, elem_of_app. simpl.
    rewrite list_elem_of_singleton, <- Hids.
    case_bool_decide as Hin.
    + intros [?| ->]; done.
    + rewrite elem_of_app, list_elem_of_singleton. tauto.
  - intros info [[Hid Hc]|[Hid Hin]]%registered_records; rewrite latest_app.
    + rewrite decide_True by done. by rewrite Hc.
    + rewrite decide_False by done. by apply Hlast.
Qed.

Section RegisterMigFacts.

Context (pkg : Package) (cloud : Cloud).

(** One call of [RegisterMig]: it returns, and what it returns and what it
    does to the manager are given by the registry alone. *)
Lemma RegisterMig_run mig w :
  exists w',
    RegisterMig pkg cloud mig w =
      (Ret (negb (bool_decide (ref (deref mig) ∈ identities (migs (manager w))))),
       w') /\
    manager w' = setMigs (registered mig (migs (manager w))) (manager w) /\
    calls w' = calls w ++ [GetMigTemplate (ref (deref mig))] /\
    nextAddr w' = nextAddr w /\
    (forall cause,
        getMigTemplate cloud (length (calls w)) mig = inl cause ->
        LogFailedTemplate (Name (ref (deref mig))) ∈ glog w').
Proof.
  pose proof (RegisterMig_loop_updated mig (migs (manager w))) as Hu.
  unfold RegisterMig, registered, bind, getManager, setManager, request, logf,
    ret.
  destruct (RegisterMig_loop mig (migs (manager w))) as [l u] eqn:El.
  simpl in *.
  assert (bool_decide (ref (deref mig) ∈ identities (migs (manager w))) = u)
    as ->.
  { destruct u.
    - apply bool_decide_eq_true_2, Hu. done.
    - apply bool_decide_eq_false_2. intros Hin%Hu. done. }
  destruct (getMigTemplate cloud (length (calls w)) mig) as [cause|t] eqn:Et;
    simpl;
    (destruct (buildNodeFromTemplate pkg mig _); simpl;
      eexists; (split; [reflexivity|]); simpl;
      repeat split; try done;
      intros cause' ?; rewrite ?elem_of_app, ?list_elem_of_singleton; auto).
Qed.

Lemma RegisterMigs_run ms : forall seen w,
  registry_of seen (migs (manager w)) ->
  exists rets w',
    RegisterMigs pkg cloud ms w = (Ret rets, w') /\
    registry_of (seen ++ ms) (migs (manager w')) /\
    (forall i mig,
        ms !! i = Some mig ->
        rets !! i =
          Some (bool_decide
                  (ref (deref mig) ∉
                     (fun x => ref (deref x)) <$> (seen ++ take i ms)))).
Proof.
  induction ms as [|mig rest IH]; intros seen w Hreg; simpl.
  - exists [], w. unfold ret. rewrite app_nil_r.
    split; [done|]. split; [done|]. intros i m Hi. by rewrite lookup_nil in Hi.
  - destruct (RegisterMig_run mig w) as (w1 & Hrun & Hm & _).
    destruct (IH (seen ++ [mig]) w1) as (bs & w2 & Hrest & Hreg2 & Hrets).
    { rewrite Hm. simpl. by apply registry_of_registered. }
    unfold bind. rewrite Hrun, Hrest. simpl.
    eexists _, w2. split; [reflexivity|]. split.
    { by rewrite <- app_assoc in Hreg2. }
    intros [|i] m Hi; simpl in *.
    + simplify_eq. rewrite app_nil_r. f_equal.
      destruct Hreg as (_ & Hids & _).
      rewrite <- bool_decide_not. apply bool_decide_ext. by rewrite Hids.
    + rewrite (Hrets i m Hi). by rewrite <- app_assoc.
Qed.

End RegisterMigFacts.

(** C6. Registering a sequence of groups from an empty registry leaves one
    record per identity registered, each holding the last group registered
    under its identity; the [i]-th call returns true exactly when no earlier
    call had the same identity, and any single call returns true exactly
    when the registry had no record with the identity of its argument. *)
Theorem RegisterMig_one_record_per_identity pkg cloud ms w :
  migs (manager w) = [] ->
  exists rets w',
    RegisterMigs pkg cloud ms w = (Ret rets, w') /\
    NoDup (identities (migs (manager w'))) /\
    (forall g,
        g ∈ identities (migs (manager w')) <->
        g ∈ (fun mig => ref (deref mig)) <$> ms) /\
    (forall info,
        info ∈ migs (manager w') ->
        latest (identity info) ms = Some (config info)) /\
    (forall i mig,
        ms !! i = Some mig ->
        rets !! i =
          Some (bool_decide
                  (ref (deref mig) ∉ (fun x => ref (deref x)) <$> take i ms))) /\
    (forall mig w0,
        (RegisterMig pkg cloud mig w0).1 =
          Ret (negb (bool_decide
                       (ref (deref mig) ∈ identities (migs (manager w0)))))).
Proof.
  intros Hempty.
  destruct (RegisterMigs_run pkg cloud ms [] w)
    as (rets & w' & Hrun & (Hnd & Hids & Hlast) & Hrets).
  { rewrite Hempty. split; [apply NoDup_nil_2|]. split.
    - intros g. split; by intros ?%elem_of_nil.
    - by intros ??%elem_of_nil. }
  exists rets, w'. repeat split; try done.
  - by apply Hids.
  - by apply Hids.
  - intros mig w0. destruct (RegisterMig_run pkg cloud mig w0) as (? & -> & _).
    done.
Qed.

Lemma RegisterMig_one_record_per_identity_witness :
  migs (manager (Demo.newWorld (Demo.newManager ModeGCE))) = [] /\
  exists rets w',
    RegisterMigs Demo.package Demo.downCloud [Demo.g1; Demo.g2; Demo.g1']
                 (Demo.newWorld (Demo.newManager ModeGCE)) = (Ret rets, w') /\
    NoDup (identities (migs (manager w'))).
Proof.
  split; [reflexivity|].
  destruct (RegisterMig_one_record_per_identity
              Demo.package Demo.downCloud [Demo.g1; Demo.g2; Demo.g1']
              (Demo.newWorld (Demo.newManager ModeGCE)) eq_refl)
    as (rets & w' & Hrun & Hnd & _).
  exists rets, w'. split; [exact Hrun | exact Hnd].
Defined.


(** C9. [DeleteInstances] on the empty list returns nil and leaves the
    world as it is: no lookup, no regeneration, no request. *)
Theorem DeleteInstances_empty pkg cloud w :
  DeleteInstances pkg cloud [] w = (Ret None, w).
Proof. reflexivity. Qed.

(** ** The cache and its regeneration *)

Section CacheFacts.

Context (pkg : Package) (cloud : Cloud).

Lemma getMigs_run w : getMigs w = (Ret (migs (manager w)), w).
Proof.
  unfold getMigs, bind, getManager, ret. f_equal. f_equal.
  induction (migs (manager w)) as [|[c b] rest IH]; simpl; [done|].
  by rewrite IH.
Qed.

Lemma some_failed_app n rs1 rs2 :
  some_failed pkg cloud n (rs1 ++ rs2) =
  some_failed pkg cloud n rs1 || some_failed pkg cloud (n + length rs1) rs2.
Proof.
  revert n. induction rs1 as [|r rest IH]; intros n; simpl.
  - by rewrite Nat.add_0_r.
  - rewrite IH, <- orb_assoc. do 3 f_equal. lia.
Qed.

Lemma regenerateCache_instances_failed mig instances c :
  existsb (fun i => match ParseInstanceUrl pkg (gce.Instance i) with
                    | inl _ => true
                    | inr _ => false
                    end) instances =
  match regenerateCache_instances pkg mig instances c with
  | inl _ => true
  | inr _ => false
  end.
Proof.
  revert c. induction instances as [|i rest IH]; intros c; simpl; [done|].
  destruct (ParseInstanceUrl pkg (gce.Instance i)) as [e|[[p z] n]]; simpl;
    [done|]. apply IH.
Qed.

(** The scan of [regenerateCache] returns, leaves the manager as it is,
    sends no request that changes the cloud, and fails exactly when one of
    its requests does. *)
Lemma regenerateCache_loop_run snapshot : forall c w,
  exists snap res w' rs,
    regenerateCache_loop pkg cloud snapshot c w = (Ret (snap, res), w') /\
    manager w' = manager w /\
    glog w' = glog w /\
    nextAddr w' = nextAddr w /\
    calls w' = calls w ++ rs /\
    Forall (fun r => mutating r = false) rs /\
    (clock w <= clock w')%N /\
    some_failed pkg cloud (length (calls w)) rs =
      match res with inl _ => true | inr _ => false end /\
    config <$> snap = config <$> snapshot.
Proof.
  induction snapshot as [|info rest IH]; intros c w; simpl.
  - exists [], (inr c), w, []. rewrite app_nil_r.
    repeat split; try done; lia.
  - unfold bind, request, ret; simpl.
    set (r := ref (deref (config info))).
    destruct (igmGet cloud (length (calls w)) (Project r) (Zone r) (Name r))
      as [e|igm] eqn:Eget; simpl.
    { eexists _, _, _, [IgmGet (Project r) (Zone r) (Name r)].
      split; [reflexivity|]. simpl. rewrite Eget.
      repeat split; try done; try (by repeat constructor); lia. }
    rewrite length_app; simpl. rewrite Nat.add_1_r.
    destruct (igmListManagedInstances cloud (S (length (calls w)))
                (Project r) (Zone r) (Name r)) as [e|instances] eqn:El; simpl.
    { eexists _, _, _, [IgmGet (Project r) (Zone r) (Name r);
                        IgmListManagedInstances (Project r) (Zone r) (Name r)].
      split; [reflexivity|]. simpl.
      rewrite <- app_assoc, Eget, El. simpl.
      repeat split; try done; try (by repeat constructor); lia. }
    pose proof (regenerateCache_instances_failed (config info) instances c)
      as Hparse.
    destruct (regenerateCache_instances pkg (config info) instances c)
      as [e|c'] eqn:Ei; simpl.
    { eexists _, _, _, [IgmGet (Project r) (Zone r) (Name r);
                        IgmListManagedInstances (Project r) (Zone r) (Name r)].
      split; [reflexivity|]. simpl.
      rewrite <- app_assoc, Eget, El, Hparse. simpl.
      repeat split; try done; try (by repeat constructor); lia. }
    match goal with
    | |- context [regenerateCache_loop pkg cloud rest c' ?w1] =>
        destruct (IH c' w1)
          as (snap & res & w' & rs & -> & Hm & Hg & Ha & Hc & Hmut & Hclk
              & Hfail & Hsnap)
    end.
    simpl in *.
    eexists _, res, w',
      ([IgmGet (Project r) (Zone r) (Name r);
        IgmListManagedInstances (Project r) (Zone r) (Name r)] ++ rs).
    split; [reflexivity|].
    rewrite Hm, Hg, Ha, Hc, <- !app_assoc. simpl.
    repeat split; try done.
    + by repeat constructor.
    + lia.
    + rewrite Eget, El, Hparse. simpl.
      rewrite <- Hfail, !length_app. simpl. do 2 f_equal. lia.
    + f_equal. exact Hsnap.
Qed.

Lemma regenerateCache_loop_withManager snapshot m : forall c w,
  regenerateCache_loop pkg cloud snapshot c (withManager m w) =
  ((regenerateCache_loop pkg cloud snapshot c w).1,
   withManager m (regenerateCache_loop pkg cloud snapshot c w).2).
Proof.
  induction snapshot as [|info rest IH]; intros c w; simpl; [done|].
  unfold bind, request, ret; simpl.
  destruct (igmGet cloud _ _ _ _) as [e|igm]; simpl; [done|].
  destruct (igmListManagedInstances cloud _ _ _ _) as [e|instances]; simpl;
    [done|].
  destruct (regenerateCache_instances pkg _ instances c) as [e|c']; simpl;
    [done|].
  match goal with
  | |- context [regenerateCache_loop pkg cloud rest c' ?w1] =>
      change w1 with
        (withManager m
           {| manager := manager w;
              calls := (calls w ++ [IgmGet (Project (ref (deref (config info))))
                                           (Zone (ref (deref (config info))))
                                           (Name (ref (deref (config info))))])
                       ++ [IgmListManagedInstances
                             (Project (ref (deref (config info))))
                             (Zone (ref (deref (config info))))
                             (Name (ref (deref (config info))))];
              clock := (clock w + latency cloud (length (calls w))
                        + latency cloud
                            (length (calls w ++
                               [IgmGet (Project (ref (deref (config info))))
                                       (Zone (ref (deref (config info))))
                                       (Name (ref (deref (config info))))])))%N;
              glog := glog w; nextAddr := nextAddr w |})
  end.
  rewrite IH.
  by destruct (regenerateCache_loop pkg cloud rest c' _) as [[[s r]|msg|] w2].
Qed.

End CacheFacts.

Section LookupFacts.

Context (pkg : Package) (cloud : Cloud).

(** [regenerateCache] runs the scan on the records of the registry from the
    empty map; it installs the map built if the scan succeeds and leaves
    the manager as it is otherwise. *)
Lemma regenerateCache_snapshot_run w :
  exists snap res w1 rs,
    regenerateCache_loop pkg cloud (migs (manager w)) ∅ w
      = (Ret (snap, res), w1) /\
    manager w1 = manager w /\
    glog w1 = glog w /\
    nextAddr w1 = nextAddr w /\
    calls w1 = calls w ++ rs /\
    Forall (fun r => mutating r = false) rs /\
    some_failed pkg cloud (length (calls w)) rs =
      match res with inl _ => true | inr _ => false end /\
    config <$> snap = config <$> migs (manager w) /\
    regenerateCache_snapshot pkg cloud w =
      match res with
      | inl e => (Ret (snap, Some e), w1)
      | inr c => (Ret (snap, None), withManager (setMigCache c (manager w)) w1)
      end.
Proof.
  destruct (regenerateCache_loop_run pkg cloud (migs (manager w)) ∅ w)
    as (snap & res & w1 & rs & Hrun & Hm & Hg & Ha & Hc & Hmut & _ & Hf & Hs).
  exists snap, res, w1, rs. repeat split; try done.
  unfold regenerateCache_snapshot, bind. rewrite getMigs_run, Hrun.
  destruct res as [e|c]; [done|].
  unfold getManager, setManager, ret, withManager. by rewrite Hm.
Qed.

Lemma regenerateCache_run w :
  exists snap res w1 rs,
    regenerateCache_loop pkg cloud (migs (manager w)) ∅ w
      = (Ret (snap, res), w1) /\
    manager w1 = manager w /\
    calls w1 = calls w ++ rs /\
    Forall (fun r => mutating r = false) rs /\
    some_failed pkg cloud (length (calls w)) rs =
      match res with inl _ => true | inr _ => false end /\
    regenerateCache pkg cloud w =
      match res with
      | inl e => (Ret (Some e), w1)
      | inr c => (Ret None, withManager (setMigCache c (manager w)) w1)
      end.
Proof.
  destruct (regenerateCache_snapshot_run w)
    as (snap & res & w1 & rs & Hrun & Hm & _ & _ & Hc & Hmut & Hf & _ & Hsn).
  exists snap, res, w1, rs. repeat split; try done.
  unfold regenerateCache, bind. rewrite Hsn. by destruct res.
Qed.

(** The loop of [GetMigForInstance]: without a candidate record it returns
    (nil, nil) at once; with one it regenerates the cache once and answers
    from the new cache. *)
Lemma GetMigForInstance_loop_run instance snapshot w :
  GetMigForInstance_loop pkg cloud instance snapshot w =
  if existsb (candidate instance) snapshot then
    match regenerateCache pkg cloud w with
    | (Ret (Some e), w') => (Ret (None, Some (ErrLookingForMig instance e)), w')
    | (Ret None, w') =>
        match migCache (manager w') !! instance with
        | Some mig => (Ret (Some mig, None), w')
        | None => (Ret (None, Some (ErrNotInAnyMig instance)), w')
        end
    | (Panic msg, w') => (Panic msg, w')
    | (OutOfFuel, w') => (OutOfFuel, w')
    end
  else (Ret (None, None), w).
Proof.
  induction snapshot as [|info rest IH]; simpl; [done|].
  unfold candidate at 1, identity.
  destruct (_ && _ && _); simpl; [|exact IH].
  unfold bind. destruct (regenerateCache pkg cloud w) as [[[e|]|msg|] w'];
    try done.
  unfold getManager. by destruct (migCache (manager w') !! instance).
Qed.

End LookupFacts.

Section ScanErrorFacts.

Context (pkg : Package) (cloud : Cloud).

Lemma regenerateCache_instances_error mig instances : forall c e,
  regenerateCache_instances pkg mig instances c = inl e ->
  first_parse_error pkg instances = Some e.
Proof.
  induction instances as [|i rest IH]; intros c e Hrun; simpl in *; [done|].
  destruct (ParseInstanceUrl pkg (gce.Instance i)) as [cause|[[p z] n]].
  - by injection Hrun as <-.
  - by eapply IH.
Qed.

(** A scan that fails returns the error of its last request, and no request
    before it failed. *)
Lemma regenerateCache_loop_error snapshot : forall c w snap e w',
  regenerateCache_loop pkg cloud snapshot c w = (Ret (snap, inl e), w') ->
  exists rs0 r,
    calls w' = calls w ++ rs0 ++ [r] /\
    some_failed pkg cloud (length (calls w)) rs0 = false /\
    scan_error pkg cloud (length (calls w) + length rs0) r = Some e.
Proof.
  induction snapshot as [|info rest IH]; intros c w snap e w' Hrun;
    simpl in Hrun; [done|].
  unfold bind, request, ret in Hrun; simpl in Hrun.
  set (r := ref (deref (config info))) in *.
  destruct (igmGet cloud (length (calls w)) (Project r) (Zone r) (Name r))
    as [cause|igm] eqn:Eget; simpl in Hrun.
  { injection Hrun as _ <- <-. exists [], (IgmGet (Project r) (Zone r) (Name r)).
    simpl. rewrite Nat.add_0_r, Eget. done. }
  rewrite length_app in Hrun; simpl in Hrun. rewrite Nat.add_1_r in Hrun.
  destruct (igmListManagedInstances cloud (S (length (calls w)))
              (Project r) (Zone r) (Name r)) as [cause|instances] eqn:El;
    simpl in Hrun.
  { injection Hrun as _ <- <-.
    exists [IgmGet (Project r) (Zone r) (Name r)],
           (IgmListManagedInstances (Project r) (Zone r) (Name r)).
    simpl. rewrite <- app_assoc, Eget, Nat.add_1_r, El. done. }
  pose proof (regenerateCache_instances_failed pkg (config info) instances c)
    as Hparse.
  destruct (regenerateCache_instances pkg (config info) instances c)
    as [e1|c1] eqn:Ei; simpl in Hrun.
  { injection Hrun as _ <- <-.
    exists [IgmGet (Project r) (Zone r) (Name r)],
           (IgmListManagedInstances (Project r) (Zone r) (Name r)).
    simpl. rewrite <- app_assoc, Eget, Nat.add_1_r, El.
    split; [done|]. split; [done|].
    by eapply regenerateCache_instances_error. }
  match type of Hrun with
  | context [regenerateCache_loop pkg cloud rest c1 ?w2] =>
      destruct (regenerateCache_loop pkg cloud rest c1 w2)
        as [[[snap2 res2]|msg|] w3] eqn:Erest; simpl in Hrun; try done
  end.
  injection Hrun as _ -> <-.
  destruct (IH _ _ _ _ _ Erest) as (rs0 & r0 & Hc & Hok & Herr).
  simpl in Hc, Hok, Herr. rewrite !length_app in Hok, Herr.
  simpl in Hok, Herr.
  exists (IgmGet (Project r) (Zone r) (Name r)
          :: IgmListManagedInstances (Project r) (Zone r) (Name r) :: rs0), r0.
  split; [by rewrite Hc, <- !app_assoc|]. split.
  - simpl. rewrite Eget, El, Hparse. simpl.
    replace (S (S (length (calls w)))) with (length (calls w) + 1 + 1) by lia.
    done.
  - simpl.
    replace (length (calls w) + S (S (length rs0)))
      with (length (calls w) + 1 + 1 + length rs0) by lia.
    done.
Qed.

End ScanErrorFacts.

(** C5. [regenerateCache] always returns.  It returns an error exactly when
    one of the requests of its scan fails (the call, or the parse of a
    listed instance URL); the error is then the one of the last request
    sent, the first that failed: the error of the failed call or of the
    first URL that does not parse; and the manager, its cache included, is
    what it was.  When it returns nil the cache is the map the scan built
    from the empty map and nothing else of the manager has changed.
    Whatever cache was installed before, the outcome and the new cache are
    the same. *)
Theorem regenerateCache_atomic pkg cloud w :
  exists err w' rs,
    regenerateCache pkg cloud w = (Ret err, w') /\
    calls w' = calls w ++ rs /\
    (some_failed pkg cloud (length (calls w)) rs = true <-> err <> None) /\
    match err with
    | Some _ => manager w' = manager w
    | None =>
        manager w' = setMigCache (migCache (manager w')) (manager w) /\
        exists snap w1,
          regenerateCache_loop pkg cloud (migs (manager w)) ∅ w =
            (Ret (snap, inr (migCache (manager w'))), w1)
    end /\
    (forall c0, exists w0',
        regenerateCache pkg cloud (withManager (setMigCache c0 (manager w)) w)
          = (Ret err, w0') /\
        (err = None -> migCache (manager w0') = migCache (manager w'))) /\
    (forall e,
        err = Some e ->
        exists rs0 r,
          rs = rs0 ++ [r] /\
          some_failed pkg cloud (length (calls w)) rs0 = false /\
          scan_error pkg cloud (length (calls w) + length rs0) r = Some e).
Proof.
  destruct (regenerateCache_run pkg cloud w)
    as (snap & res & w1 & rs & Hrun & Hm & Hc & _ & Hf & Hreg).
  assert (forall c0, regenerateCache pkg cloud
                       (withManager (setMigCache c0 (manager w)) w) =
                     match res with
                     | inl e => (Ret (Some e), withManager (setMigCache c0 (manager w)) w1)
                     | inr c => (Ret None,
                                 withManager (setMigCache c (manager w)) w1)
                     end) as Hother.
  { intros c0.
    destruct (regenerateCache_run pkg cloud
                (withManager (setMigCache c0 (manager w)) w))
      as (snap0 & res0 & w0 & rs0 & Hrun0 & _ & _ & _ & _ & Hreg0).
    simpl in Hrun0. rewrite regenerateCache_loop_withManager, Hrun in Hrun0.
    simpl in Hrun0. injection Hrun0 as <- <- <-.
    rewrite Hreg0. by destruct res. }
  destruct res as [e|c].
  - exists (Some e), w1, rs. rewrite Hf. repeat split; try done.
    + intros c0. eexists. by rewrite Hother.
    + intros e' He'. injection He' as <-.
      destruct (regenerateCache_loop_error pkg cloud _ _ _ _ _ _ Hrun)
        as (rs0 & r & Hc' & Hok & Herr).
      exists rs0, r. split; [|done].
      rewrite Hc in Hc'. by apply app_inv_head in Hc'.
  - exists None, (withManager (setMigCache c (manager w)) w1), rs.
    rewrite Hf. simpl. repeat split; try done.
    + by exists snap, w1.
    + intros c0. eexists. by rewrite Hother.
Qed.

Lemma setMigCache_same m : setMigCache (migCache m) m = m.
Proof. by destruct m. Qed.

(** C10. Neither [regenerateCache] nor [GetMigForInstance] changes the
    registry: the list of records (identities, order, configs and base
    names) is the same after the call, and the manager differs from what it
    was in its cache at most. *)
Theorem lookup_and_regeneration_keep_registry pkg cloud instance w :
  (migs (manager (regenerateCache pkg cloud w).2) = migs (manager w) /\
   exists c, manager (regenerateCache pkg cloud w).2
             = setMigCache c (manager w)) /\
  (migs (manager (GetMigForInstance pkg cloud instance w).2) = migs (manager w) /\
   exists c, manager (GetMigForInstance pkg cloud instance w).2
             = setMigCache c (manager w)).
Proof.
  assert (exists c, manager (regenerateCache pkg cloud w).2
                    = setMigCache c (manager w)) as Hregen.
  { destruct (regenerateCache_run pkg cloud w)
      as (snap & res & w1 & rs & _ & Hm & _ & _ & _ & ->).
    destruct res as [e|c]; simpl.
    - exists (migCache (manager w)). by rewrite Hm, setMigCache_same.
    - by exists c. }
  assert (exists c, manager (GetMigForInstance pkg cloud instance w).2
                    = setMigCache c (manager w)) as Hlookup.
  { unfold GetMigForInstance, bind, getManager.
    destruct (migCache (manager w) !! instance).
    { exists (migCache (manager w)). by rewrite setMigCache_same. }
    rewrite getMigs_run, GetMigForInstance_loop_run.
    destruct (existsb _ _).
    2:{ exists (migCache (manager w)). by rewrite setMigCache_same. }
    destruct Hregen as [c Hc].
    destruct (regenerateCache pkg cloud w) as [[[e|]|msg|] w']; simpl in *;
      try (by exists c).
    destruct (migCache (manager w') !! instance); by exists c. }
  split; (split; [|done]).
  - destruct Hregen as [c ->]. done.
  - destruct Hlookup as [c ->]. done.
Qed.

(** C2, as amended. For an instance absent from the cache: when some record
    has the project and zone of the instance and a base name that is a
    prefix of its name (the empty base name is one), [GetMigForInstance]
    runs [regenerateCache] once; it returns an error if the regeneration
    fails, the group of the instance if the new cache has it and the error
    "does not belong to any configured MIG" if it has not.  When no record
    is such, it returns (nil, nil) and the world is as before: nothing was
    regenerated. *)
Theorem GetMigForInstance_absent pkg cloud instance w :
  migCache (manager w) !! instance = None ->
  if existsb (candidate instance) (migs (manager w)) then
    exists err w',
      regenerateCache pkg cloud w = (Ret err, w') /\
      GetMigForInstance pkg cloud instance w =
        (Ret match err with
             | Some e => (None, Some (ErrLookingForMig instance e))
             | None =>
                 match migCache (manager w') !! instance with
                 | Some mig => (Some mig, None)
                 | None => (None, Some (ErrNotInAnyMig instance))
                 end
             end, w')
  else GetMigForInstance pkg cloud instance w = (Ret (None, None), w).
Proof.
  intros Hmiss.
  unfold GetMigForInstance, bind, getManager. rewrite Hmiss.
  rewrite getMigs_run, GetMigForInstance_loop_run.
  destruct (existsb _ _); [|done].
  destruct (regenerateCache_run pkg cloud w)
    as (snap & res & w1 & rs & _ & _ & _ & _ & _ & ->).
  destruct res as [e|c].
  - by exists (Some e), w1.
  - eexists None, _. split; [done|].
    simpl. by destruct (c !! instance).
Qed.

Lemma GetMigForInstance_absent_witness :
  migCache (manager Demo.twoGroups) !! Demo.instance "a-1" = None /\
  if existsb (candidate (Demo.instance "a-1")) (migs (manager Demo.twoGroups))
  then
    exists err w',
      regenerateCache Demo.package Demo.calmCloud Demo.twoGroups
        = (Ret err, w') /\
      GetMigForInstance Demo.package Demo.calmCloud (Demo.instance "a-1")
                        Demo.twoGroups =
        (Ret match err with
             | Some e => (None, Some (ErrLookingForMig (Demo.instance "a-1") e))
             | None =>
                 match migCache (manager w') !! Demo.instance "a-1" with
                 | Some mig => (Some mig, None)
                 | None => (None, Some (ErrNotInAnyMig (Demo.instance "a-1")))
                 end
             end, w')
  else GetMigForInstance Demo.package Demo.calmCloud (Demo.instance "a-1")
                         Demo.twoGroups = (Ret (None, None), Demo.twoGroups).
Proof.
  split; [vm_compute; reflexivity|].
  apply (GetMigForInstance_absent Demo.package Demo.calmCloud
           (Demo.instance "a-1") Demo.twoGroups).
  vm_compute; reflexivity.
Defined.

(** C2, as stated, fails: the record of [g1] has the non-empty base name
    [a], a prefix of the name of instance [a-9] of the same project and
    zone; the instance is not in the cache, nor in the cache regenerated
    from the cloud; the lookup returns an error, not (nil, nil). *)
Lemma GetMigForInstance_still_absent_is_error :
  migCache (manager Demo.namedGroup) !! Demo.instance "a-9" = None /\
  (exists info,
      info ∈ migs (manager Demo.namedGroup) /\
      basename info <> "" /\
      Strings.HasPrefix (Name (Demo.instance "a-9")) (basename info) = true /\
      Project (identity info) = Project (Demo.instance "a-9") /\
      Zone (identity info) = Zone (Demo.instance "a-9")) /\
  exists w',
    GetMigForInstance Demo.package Demo.calmCloud (Demo.instance "a-9")
                      Demo.namedGroup =
      (Ret (None, Some (ErrNotInAnyMig (Demo.instance "a-9"))), w') /\
    migCache (manager w') !! Demo.instance "a-9" = None /\
    (Ret (None, Some (ErrNotInAnyMig (Demo.instance "a-9")))
       : Outcome (option MigPtr * option error)) <> Ret (None, None).
Proof.
  split; [vm_compute; reflexivity|]. split.
  - exists {| config := Demo.g1; basename := "a" |}.
    split; [apply list_elem_of_singleton; reflexivity|].
    repeat split; done.
  - eexists. split; [vm_compute; reflexivity|].
    split; [vm_compute; reflexivity | discriminate].
Qed.

(** C3 fails on the code: [g1] is registered and the cache regenerated
    without error; the cloud reports the base instance name [a], which is
    written to the struct [getMigs] returned, and the record of the
    registry still has the empty base name. *)
Theorem regenerateCache_basename_not_recorded :
  let w := (RegisterMig Demo.package Demo.calmCloud Demo.g1
              (Demo.newWorld (Demo.newManager ModeGCE))).2 in
  exists w',
    regenerateCache_snapshot Demo.package Demo.calmCloud w =
      (Ret ([{| config := Demo.g1; basename := "a" |}], None), w') /\
    migs (manager w') = [{| config := Demo.g1; basename := "" |}].
Proof.
  eexists. split; vm_compute; reflexivity.
Qed.

Lemma pool_autoprovisioned_false nodePool :
  pool_autoprovisioned nodePool = false.
Proof. reflexivity. Qed.

(** C1 fails on the code: of the three node pools of the scenario, the one
    named with the autoprovisioning prefix and not autoscaled is skipped
    like the plain one; only the autoscaled pool is registered, with bounds
    1 and 5. *)
Theorem fetchAllNodePools_skips_autoprovisioned :
  String.prefix nodeAutoprovisioningPrefix (gke.Name Demo.provisionedPool)
    = true /\
  exists w',
    fetchAllNodePools Demo.package Demo.gkeCloud
                      (Demo.newWorld (Demo.newManager ModeGKE))
      = (Ret None, w') /\
    (fun info => (identity info, minSize (deref (config info)),
                  maxSize (deref (config info)))) <$> migs (manager w')
      = [({| Project := "p1"; Zone := "z1"; Name := "g1" |}, 1%Z, 5%Z)].
Proof.
  split; [reflexivity|].
  eexists. split; vm_compute; reflexivity.
Qed.

(** ** The operation poller *)

Section PollerFacts.

Context (cloud : Cloud) (operation : gce.Operation) (project zone : string).

Let poll : Request := ZoneOperationsGet project zone (gce.Name operation).
Let timeout : error :=
  ErrOperationTimeout (gce.Name operation) (gce.TargetLink operation).

(** One more round: a status request that does not show "DONE", a sleep,
    and then a run of the loop. *)
Lemma polled_next start w w2 err w' k :
  (clock w - start < operationWaitTimeout)%N ->
  done_at cloud project zone operation (length (calls w)) = false ->
  manager w2 = manager w ->
  calls w2 = calls w ++ [poll] ->
  (clock w <= clock w2)%N ->
  (forall e, e ∈ glog w -> e ∈ glog w2) ->
  (forall cause,
      zoneOperationsGet cloud (length (calls w)) project zone
                        (gce.Name operation) = inl cause ->
      LogOperationGetError (gce.Name operation) (gce.TargetLink operation) cause
        ∈ glog w2) ->
  polled cloud operation project zone start w2 err w' k ->
  polled cloud operation project zone start w err w' (S k).
Proof.
  intros Hlt Hnot Hm2 Hc2 Hclk2 Hlog2 Hfail2
    (Hm & Hc & Hclk & Hcases & Hiff & Hto & _ & Hlogs & Hkeep).
  assert (length (calls w2) = S (length (calls w))) as Hlen.
  { rewrite Hc2, length_app. simpl. lia. }
  unfold polled. split; [congruence|]. split.
  { rewrite Hc, Hc2, <- app_assoc. done. }
  split; [lia|]. split; [done|]. split.
  { rewrite Hiff. split.
    - intros (i & Hi & Hd). exists (S i). split; [lia|].
      rewrite Hlen in Hd. by rewrite Nat.add_succ_r.
    - intros ([|i] & Hi & Hd).
      + rewrite Nat.add_0_r in Hd. congruence.
      + exists i. split; [lia|]. rewrite Hlen. by rewrite Nat.add_succ_r in Hd. }
  split; [done|]. split; [congruence|]. split.
  - intros [|i] cause Hi Hans.
    + rewrite Nat.add_0_r in Hans. eauto.
    + apply (Hlogs i cause); [lia|]. rewrite Hlen.
      by rewrite Nat.add_succ_r in Hans.
  - eauto.
Qed.

Lemma waitForOp_loop_run fuel : forall start w,
  1 <= fuel ->
  (operationWaitTimeout <=
   N.of_nat (fuel - 1) * operationPollInterval + (clock w - start))%N ->
  (start <= clock w)%N ->
  exists err w' k,
    waitForOp_loop cloud fuel start operation project zone w = (Ret err, w') /\
    k < fuel /\
    polled cloud operation project zone start w err w' k.
Proof.
  induction fuel as [|fuel IH]; intros start w Hfuel Hbound Hstart; [lia|].
  simpl. unfold bind at 1, timeNow.
  destruct (N.ltb_spec (clock w - start) operationWaitTimeout) as [Hlt|Hge].
  2:{ exists (Some timeout), w, 0. split; [done|]. split; [lia|].
      unfold polled. simpl. rewrite app_nil_r.
      repeat split; try done; try lia; auto.
      all: try (intros (i & Hi & _); lia).
      all: intros i cause Hi; lia. }
  assert (1 <= fuel) as Hfuel'.
  { destruct fuel; [|lia]. simpl in Hbound. lia. }
  assert (forall w2,
             calls w2 = calls w ++ [poll] ->
             (clock w + operationPollInterval <= clock w2)%N ->
             exists err w' k,
               waitForOp_loop cloud fuel start operation project zone w2
                 = (Ret err, w') /\ k < fuel /\ polled cloud operation project zone start w2 err w' k)
    as Hrec.
  { intros w2 Hc2 Hclk2. apply IH; [done| |lia].
    replace (N.of_nat (S fuel - 1)) with (N.of_nat (fuel - 1) + 1)%N
      in Hbound by lia.
    lia. }
  unfold bind, request, timeSleep, logf, ret; simpl.
  pose proof (eq_refl (done_at cloud project zone operation (length (calls w))))
    as Hdone.
  unfold done_at at 1 in Hdone.
  destruct (zoneOperationsGet cloud (length (calls w)) project zone
              (gce.Name operation)) as [cause|op] eqn:Eans; simpl.
  - match goal with
    | |- context [waitForOp_loop cloud fuel start operation project zone ?w2] =>
        destruct (Hrec w2) as (err & w' & k & -> & Hk & Hp);
          [done | simpl; lia |]
    end.
    exists err, w', (S k). split; [done|]. split; [lia|].
    eapply polled_next; [done| by symmetry | | | | | | exact Hp]; simpl;
      try done; try lia.
    + intros e He. apply elem_of_app. by left.
    + intros cause' Hc'. rewrite Eans in Hc'. injection Hc' as <-.
      apply elem_of_app. right. constructor.
  - destruct (String.eqb (gce.Status op) "DONE") eqn:Est; simpl.
    + eexists None, _, 1. split; [reflexivity|]. split; [lia|].
      unfold polled. simpl.
      repeat split; try done; try lia; auto.
      * intros _. exists 0. split; [lia|]. by rewrite Nat.add_0_r.
      * intros i cause Hi Hans. replace i with 0 in Hans by lia.
        rewrite Nat.add_0_r in Hans. congruence.
    + match goal with
      | |- context [waitForOp_loop cloud fuel start operation project zone ?w2] =>
          destruct (Hrec w2) as (err & w' & k & -> & Hk & Hp);
            [done | simpl; lia |]
      end.
      exists err, w', (S k). split; [done|]. split; [lia|].
      eapply polled_next; [done| by symmetry | | | | | | exact Hp]; simpl;
        try done; try lia.
      intros cause' Hc'. congruence.
Qed.

(** [waitForOp] returns and sends status requests only. *)
Lemma waitForOp_run w :
  exists err w' k,
    waitForOp cloud operation project zone w = (Ret err, w') /\
    calls w' = calls w ++ replicate k poll.
Proof.
  destruct (waitForOp_loop_run waitForOp_fuel (clock w) w)
    as (err & w' & k & Hrun & _ & _ & Hc & _).
  - unfold waitForOp_fuel. lia.
  - unfold waitForOp_fuel, operationWaitTimeout, operationPollInterval. lia.
  - lia.
  - exists err, w', k. unfold waitForOp, bind, timeNow. by rewrite Hrun.
Qed.

End PollerFacts.

Section PollTimes.

Context (cloud : Cloud) (operation : gce.Operation) (project zone : string).

(** The time of a later request, counted from the request after the
    first. *)
Lemma poll_time_next n t i :
  poll_time cloud n t (S i) =
  poll_time cloud (S n)
    (t + latency cloud n + operationPollInterval
     + oversleep cloud (t + latency cloud n))%N i.
Proof.
  induction i as [|i IH].
  - simpl. by rewrite Nat.add_0_r.
  - change (poll_time cloud n t (S (S i)))
      with (poll_time cloud n t (S i) + latency cloud (n + S i)
            + operationPollInterval
            + oversleep cloud (poll_time cloud n t (S i)
                               + latency cloud (n + S i)))%N.
    rewrite IH. simpl. by rewrite Nat.add_succ_r.
Qed.

(** When the loop of [waitForOp] sends its requests and when it returns:
    every request is sent before the timeout; a request that is not
    answered "DONE" is followed, one sleep later, by another as long as the
    timeout has not passed. *)
Lemma waitForOp_loop_times fuel : forall start w err w',
  waitForOp_loop cloud fuel start operation project zone w = (Ret err, w') ->
  exists k,
    calls w' =
      calls w ++ replicate k (ZoneOperationsGet project zone (gce.Name operation)) /\
    ((clock w - start < operationWaitTimeout)%N -> 1 <= k) /\
    (forall i, i < k ->
       (poll_time cloud (length (calls w)) (clock w) i - start
        < operationWaitTimeout)%N) /\
    (forall i, i < k ->
       done_at cloud project zone operation (length (calls w) + i) = false ->
       (poll_time cloud (length (calls w)) (clock w) (S i) - start
        < operationWaitTimeout)%N ->
       S i < k) /\
    match err with
    | None =>
        1 <= k /\
        clock w' =
          (poll_time cloud (length (calls w)) (clock w) (k - 1)
           + latency cloud (length (calls w) + (k - 1)))%N
    | Some _ =>
        clock w' = poll_time cloud (length (calls w)) (clock w) k /\
        (operationWaitTimeout
         <= poll_time cloud (length (calls w)) (clock w) k - start)%N
    end.
Proof.
  induction fuel as [|fuel IH]; intros start w err w' Hrun; [done|].
  simpl in Hrun. unfold bind at 1, timeNow in Hrun.
  destruct (N.ltb_spec (clock w - start) operationWaitTimeout) as [Hlt|Hge].
  2:{ unfold ret in Hrun. injection Hrun as <- <-. exists 0. simpl.
      rewrite app_nil_r. split; [done|]. split; [lia|].
      split; [intros i Hi; lia|]. split; [intros i Hi; lia|]. done. }
  unfold bind, request, timeSleep, logf, ret in Hrun; simpl in Hrun.
  pose proof (eq_refl (done_at cloud project zone operation (length (calls w))))
    as Hdone.
  unfold done_at at 1 in Hdone.
  set (P := fun k =>
         calls w' =
           calls w ++ replicate k (ZoneOperationsGet project zone
                                     (gce.Name operation)) /\
         ((clock w - start < operationWaitTimeout)%N -> 1 <= k) /\
         (forall i, i < k ->
            (poll_time cloud (length (calls w)) (clock w) i - start
             < operationWaitTimeout)%N) /\
         (forall i, i < k ->
            done_at cloud project zone operation (length (calls w) + i) = false ->
            (poll_time cloud (length (calls w)) (clock w) (S i) - start
             < operationWaitTimeout)%N ->
            S i < k) /\
         match err with
         | None =>
             1 <= k /\
             clock w' =
               (poll_time cloud (length (calls w)) (clock w) (k - 1)
                + latency cloud (length (calls w) + (k - 1)))%N
         | Some _ =>
             clock w' = poll_time cloud (length (calls w)) (clock w) k /\
             (operationWaitTimeout
              <= poll_time cloud (length (calls w)) (clock w) k - start)%N
         end).
  assert (forall w2,
             calls w2 = calls w ++
                        [ZoneOperationsGet project zone (gce.Name operation)] ->
             clock w2 =
               (clock w + latency cloud (length (calls w))
                + operationPollInterval
                + oversleep cloud (clock w + latency cloud (length (calls w))))%N ->
             waitForOp_loop cloud fuel start operation project zone w2
               = (Ret err, w') ->
             exists k, P k) as Hnext.
  { intros w2 Hc2 Hclk2 Hrest.
    destruct (IH _ _ _ _ Hrest) as (k & Hc & Hk1 & Hin & Hre & Hend).
    assert (length (calls w2) = S (length (calls w))) as Hlen.
    { rewrite Hc2, length_app. simpl. lia. }
    rewrite Hlen, Hclk2 in Hin, Hre, Hend. rewrite Hclk2 in Hk1.
    exists (S k). unfold P. split; [by rewrite Hc, Hc2, <- app_assoc|].
    split; [lia|]. split; [|split].
    - intros [|i] Hi; [done|]. rewrite poll_time_next. apply Hin. lia.
    - intros [|i] Hi Hnot Hopen.
      + rewrite poll_time_next in Hopen. simpl in Hopen.
        specialize (Hk1 Hopen). lia.
      + rewrite poll_time_next in Hopen.
        rewrite Nat.add_succ_r in Hnot.
        assert (S i < k); [|lia].
        apply Hre; [lia|exact Hnot|exact Hopen].
    - destruct err as [e|].
      + rewrite poll_time_next. exact Hend.
      + destruct Hend as [Hk Hclk]. split; [lia|].
        replace (S k - 1) with (S (k - 1)) by lia.
        rewrite poll_time_next, Nat.add_succ_r. exact Hclk. }
  destruct (zoneOperationsGet cloud (length (calls w)) project zone
              (gce.Name operation)) as [cause|op]; simpl in Hrun.
  - eapply Hnext; [| |exact Hrun]; done.
  - destruct (String.eqb (gce.Status op) "DONE") eqn:Est; simpl in Hrun.
    + injection Hrun as <- <-. exists 1. unfold P. simpl.
      split; [done|]. split; [lia|]. split; [|split].
      * intros i Hi. replace i with 0 by lia. done.
      * intros i Hi Hnot. replace i with 0 in Hnot by lia.
        rewrite Nat.add_0_r, <- Hdone in Hnot. done.
      * split; [lia|]. by rewrite Nat.add_0_r.
    + eapply Hnext; [| |exact Hrun]; done.
Qed.

End PollTimes.

(** C7. [waitForOp] always returns, after at most 50 status requests and
    nothing but status requests.  It returns nil exactly when one of these
    requests was answered with the status "DONE", and the timeout error
    naming the operation and its target link otherwise, in which case at
    least [operationWaitTimeout] has passed.  The error of a failed status
    request is written to the log and never returned.  When the first
    status request is answered "DONE", [waitForOp] returns nil after this
    one request.  Every status request is sent within
    [operationWaitTimeout] of the call, and a request that is not answered
    "DONE" (an error or another status) is polled again after a sleep of
    [operationPollInterval] whenever that is still within the timeout; the
    timeout error is returned at the first time a request is due past the
    timeout. *)
Theorem waitForOp_returns cloud operation project zone w :
  exists err w' k,
    waitForOp cloud operation project zone w = (Ret err, w') /\
    k <= 50 /\
    calls w' =
      calls w ++ replicate k (ZoneOperationsGet project zone (gce.Name operation)) /\
    (err = None \/
     err = Some (ErrOperationTimeout (gce.Name operation)
                                     (gce.TargetLink operation))) /\
    (err = None <->
     exists i, i < k /\
               done_at cloud project zone operation (length (calls w) + i) = true) /\
    (err <> None -> (operationWaitTimeout <= clock w' - clock w)%N) /\
    (done_at cloud project zone operation (length (calls w)) = true ->
     err = None /\ k = 1) /\
    (forall i cause,
        i < k ->
        zoneOperationsGet cloud (length (calls w) + i) project zone
                          (gce.Name operation) = inl cause ->
        LogOperationGetError (gce.Name operation) (gce.TargetLink operation)
                             cause ∈ glog w') /\
    1 <= k /\
    (forall i, i < k ->
       (poll_time cloud (length (calls w)) (clock w) i - clock w
        < operationWaitTimeout)%N) /\
    (forall i, i < k ->
       done_at cloud project zone operation (length (calls w) + i) = false ->
       (poll_time cloud (length (calls w)) (clock w) (S i) - clock w
        < operationWaitTimeout)%N ->
       S i < k) /\
    match err with
    | None =>
        clock w' =
          (poll_time cloud (length (calls w)) (clock w) (k - 1)
           + latency cloud (length (calls w) + (k - 1)))%N
    | Some _ =>
        clock w' = poll_time cloud (length (calls w)) (clock w) k /\
        (operationWaitTimeout
         <= poll_time cloud (length (calls w)) (clock w) k - clock w)%N
    end.
Proof.
  destruct (waitForOp_loop_run cloud operation project zone waitForOp_fuel
              (clock w) w)
    as (err & w' & k & Hrun & Hk
        & _ & Hc & _ & Hcases & Hiff & Hto & Hfirst & Hlog & _).
  - unfold waitForOp_fuel. lia.
  - unfold waitForOp_fuel, operationWaitTimeout, operationPollInterval. lia.
  - lia.
  - destruct (waitForOp_loop_times cloud operation project zone
                waitForOp_fuel (clock w) w err w' Hrun)
      as (k' & Hc' & Hk1 & Hin & Hre & Hend).
    assert (k' = k) as ->.
    { rewrite Hc in Hc'. apply app_inv_head in Hc'.
      apply (f_equal length) in Hc'. by rewrite !length_replicate in Hc'. }
    assert (waitForOp cloud operation project zone w =
            waitForOp_loop cloud waitForOp_fuel (clock w) operation project
                           zone w) as Heq by reflexivity.
    exists err, w', k. rewrite Heq.
    unfold waitForOp_fuel in Hk.
    assert ((clock w - clock w < operationWaitTimeout)%N) as Hopen.
    { unfold operationWaitTimeout. lia. }
    split; [exact Hrun|]. split; [lia|]. split; [exact Hc|].
    split; [exact Hcases|]. split; [exact Hiff|]. split; [exact Hto|].
    split; [by apply Hfirst|]. split; [exact Hlog|].
    split; [by apply Hk1|]. split; [exact Hin|]. split; [exact Hre|].
    destruct err as [e|]; [exact Hend|]. by destruct Hend.
Qed.

(** ** Deleting instances *)

Lemma no_mutation_refl w : no_mutation w w.
Proof. exists []. by rewrite app_nil_r. Qed.

Lemma no_mutation_trans w1 w2 w3 :
  no_mutation w1 w2 -> no_mutation w2 w3 -> no_mutation w1 w3.
Proof.
  intros (rs1 & H1 & F1) (rs2 & H2 & F2). exists (rs1 ++ rs2).
  split; [by rewrite H2, H1, app_assoc|]. by apply Forall_app.
Qed.

Section DeleteFacts.

Context (pkg : Package) (cloud : Cloud).

(** A lookup returns and sends no request that changes the cloud. *)
Lemma GetMigForInstance_returns instance w :
  exists mig err w',
    GetMigForInstance pkg cloud instance w = (Ret (mig, err), w') /\
    no_mutation w w'.
Proof.
  unfold GetMigForInstance, bind, getManager.
  destruct (migCache (manager w) !! instance) as [mig|].
  { exists (Some mig), None, w. split; [done|apply no_mutation_refl]. }
  rewrite getMigs_run, GetMigForInstance_loop_run.
  destruct (existsb _ _).
  2:{ exists None, None, w. split; [done|apply no_mutation_refl]. }
  destruct (regenerateCache_run pkg cloud w)
    as (snap & res & w1 & rs & _ & _ & Hc & Hmut & _ & ->).
  destruct res as [e|c].
  - eexists _, _, _. split; [reflexivity|]. by exists rs.
  - destruct (migCache _ !! instance);
      (eexists _, _, _; split; [reflexivity|]; by exists rs).
Qed.

(** The first loop of [DeleteInstances] returns without a request that
    changes the cloud: with nil when every lookup returned [common], with
    the error of the first lookup that failed, or with [ErrNotSameMig] at
    the first lookup that returned something else. *)
Lemma DeleteInstances_check_run common instances : forall w,
  exists err w',
    DeleteInstances_check pkg cloud common instances w = (Ret err, w') /\
    no_mutation w w' /\
    ((err = None /\ all_resolve pkg cloud common instances w w') \/
     (exists pre instance post mig e w1,
         instances = pre ++ instance :: post /\
         all_resolve pkg cloud common pre w w1 /\
         GetMigForInstance pkg cloud instance w1 = (Ret (mig, e), w') /\
         match e with
         | Some e' => err = Some e'
         | None => ptr_eqb mig common = false /\ err = Some ErrNotSameMig
         end)).
Proof.
  induction instances as [|instance rest IH]; intros w; simpl.
  - exists None, w. split; [done|]. split; [apply no_mutation_refl|].
    left. split; [done|constructor].
  - destruct (GetMigForInstance_returns instance w)
      as (mig & e & w1 & Hl & Hmut).
    unfold bind. rewrite Hl. destruct e as [e|].
    { exists (Some e), w1. split; [done|]. split; [done|]. right.
      exists [], instance, rest, mig, (Some e), w.
      split; [done|]. split; [constructor|]. done. }
    destruct (ptr_eqb mig common) eqn:Heq; simpl.
    2:{ exists (Some ErrNotSameMig), w1. split; [done|]. split; [done|]. right.
        exists [], instance, rest, mig, None, w.
        split; [done|]. split; [constructor|]. done. }
    destruct (IH w1) as (err & w' & -> & Hmut' & Hcases).
    exists err, w'. split; [done|].
    split; [by eapply no_mutation_trans|].
    destruct Hcases as [[-> Hall]|(pre & i & post & m & e & w2 & -> & Hall & Hi & He)].
    + left. split; [done|]. by eapply all_resolve_cons.
    + right. exists (instance :: pre), i, post, m, e, w2.
      split; [done|]. split; [by eapply all_resolve_cons|]. done.
Qed.

End DeleteFacts.

(** C4, as amended. [DeleteInstances] on a non-empty list looks up the
    first instance and then every instance in order.  If a lookup returns
    an error, that error is returned; if a lookup returns another group
    than the first lookup did (or nil where it returned a group, or a group
    where it returned nil), the error "cannot delete instances which don't
    belong to the same MIG" is returned; in both cases no request that
    changes the cloud was sent.  The delete request is sent only when every
    lookup returned the group of the first one: it is then the only request
    that changes the cloud, it is addressed to that group and it carries
    the URLs of all the instances. *)
Theorem DeleteInstances_same_mig pkg cloud first rest w :
  exists common err0 w0 o w',
    GetMigForInstance pkg cloud first w = (Ret (common, err0), w0) /\
    DeleteInstances pkg cloud (first :: rest) w = (o, w') /\
    match err0 with
    | Some e => o = Ret (Some e) /\ no_mutation w w'
    | None =>
        (exists pre instance post mig e w1,
            first :: rest = pre ++ instance :: post /\
            all_resolve pkg cloud common pre w0 w1 /\
            GetMigForInstance pkg cloud instance w1 = (Ret (mig, e), w') /\
            no_mutation w w' /\
            match e with
            | Some e' => o = Ret (Some e')
            | None => ptr_eqb mig common = false /\ o = Ret (Some ErrNotSameMig)
            end) \/
        (exists w2,
            all_resolve pkg cloud common (first :: rest) w0 w2 /\
            no_mutation w w2 /\
            match common with
            | None => no_mutation w w'
            | Some c =>
                exists err rs,
                  o = Ret err /\
                  calls w' =
                    calls w2 ++
                    IgmDeleteInstances (Project (ref (deref c)))
                                       (Zone (ref (deref c)))
                                       (Name (ref (deref c)))
                                       (instanceUrls pkg (first :: rest)) :: rs /\
                  Forall (fun r => mutating r = false) rs
            end)
    end.
Proof.
  destruct (GetMigForInstance_returns pkg cloud first w)
    as (common & err0 & w0 & Hfirst & Hmut0).
  exists common, err0, w0.
  unfold DeleteInstances, bind. rewrite Hfirst.
  destruct err0 as [e|]; [by eexists _, _|].
  destruct (DeleteInstances_check_run pkg cloud common (first :: rest) w0)
    as (err & w2 & -> & Hmut2 & Hcases).
  assert (no_mutation w w2) as Hmut by by eapply no_mutation_trans.
  destruct Hcases
    as [[-> Hall]|(pre & i & post & m & e & w1 & Hsplit & Hall & Hi & He)].
  2:{ exists (Ret err), w2. split; [done|]. split.
      { destruct e as [e|]; [by rewrite He | by destruct He as [_ ->]]. }
      left. exists pre, i, post, m, e, w1. repeat split; try done.
      destruct e as [e|]; [by rewrite He | by destruct He as [? ->]]. }
  destruct common as [c|].
  2:{ eexists _, _. split; [reflexivity|]. split; [done|].
      right. exists w2. by repeat split. }
  unfold request; simpl.
  destruct (igmDeleteInstances cloud _ _ _ _ _) as [cause|op]; simpl.
  { eexists _, _. split; [reflexivity|]. split; [done|].
    right. exists w2. repeat split; try done.
    eexists _, []. by repeat split. }
  match goal with
  | |- context [waitForOp cloud op ?p ?z ?w3] =>
      destruct (waitForOp_run cloud op p z w3) as (err & w' & k & -> & Hc)
  end.
  eexists _, _. split; [reflexivity|]. split; [done|].
  right. exists w2. repeat split; try done.
  eexists err, _. split; [done|]. simpl in Hc. rewrite Hc, <- app_assoc.
  split; [reflexivity|]. by apply Forall_replicate.
Qed.

(** C4, as stated, fails: the groups [g1] and [g2] are registered and the
    lookup of instance [a-9] fails (no group has it); [DeleteInstances]
    returns the error of the lookup, which is not the error about
    instances of different groups. *)
Lemma DeleteInstances_unresolved_returns_lookup_error :
  (exists w1,
      GetMigForInstance Demo.package Demo.calmCloud (Demo.instance "a-9")
                        Demo.twoGroups =
        (Ret (None, Some (ErrNotInAnyMig (Demo.instance "a-9"))), w1)) /\
  exists w',
    DeleteInstances Demo.package Demo.calmCloud [Demo.instance "a-9"]
                    Demo.twoGroups =
      (Ret (Some (ErrNotInAnyMig (Demo.instance "a-9"))), w') /\
    ErrNotInAnyMig (Demo.instance "a-9") <> ErrNotSameMig.
Proof.
  split.
  - eexists. vm_compute. reflexivity.
  - eexists. split; [vm_compute; reflexivity | discriminate].
Qed.

(** * More properties *)

(** ** Registering a group *)

Lemma RegisterMig_loop_updated_map mig l :
  (RegisterMig_loop mig l).1 = updated mig <$> l.
Proof.
  induction l as [|info rest IH]; simpl; [done|].
  destruct (RegisterMig_loop mig rest) as [rest' u]; simpl in *.
  unfold updated at 1, identity. case_decide; simpl; by rewrite IH.
Qed.

Lemma registered_updated mig l :
  registered mig l =
  (updated mig <$> l) ++
  (if bool_decide (ref (deref mig) ∈ identities l) then []
   else [{| config := mig; basename := "" |}]).
Proof.
  unfold registered. rewrite RegisterMig_loop_updated_map.
  pose proof (RegisterMig_loop_updated mig l) as Hu.
  destruct (RegisterMig_loop mig l).2.
  - rewrite bool_decide_eq_true_2 by by apply Hu. by rewrite app_nil_r.
  - rewrite bool_decide_eq_false_2; [done|]. intros Hin. apply Hu in Hin. done.
Qed.

Lemma updated_absent mig l :
  ref (deref mig) ∉ identities l -> updated mig <$> l = l.
Proof.
  induction l as [|info rest IH]; [done|].
  unfold identities. rewrite !fmap_cons.
  intros [Hne Hrest]%not_elem_of_cons. rewrite (IH Hrest).
  unfold updated. by rewrite decide_False.
Qed.

Lemma updated_twice mig info : updated mig (updated mig info) = updated mig info.
Proof.
  unfold updated.
  destruct (decide (identity info = ref (deref mig))) as [Heq|Hne].
  - by rewrite decide_True.
  - by rewrite decide_False.
Qed.

Lemma updated_identity mig info : identity (updated mig info) = identity info.
Proof. unfold updated. case_decide as Heq; [|done]. by rewrite Heq. Qed.

(** X1. [RegisterMig] rewrites the registry in place: every record with the
    identity of the group gets the group as its config and keeps its base
    name, every other record is untouched, and one record with an empty
    base name is added at the end exactly when no record had the identity.
    Nothing else of the manager changes. *)
Theorem RegisterMig_registry pkg cloud mig w :
  exists b w',
    RegisterMig pkg cloud mig w = (Ret b, w') /\
    migs (manager w') =
      (updated mig <$> migs (manager w)) ++
      (if b then [{| config := mig; basename := "" |}] else []) /\
    manager w' = setMigs (migs (manager w')) (manager w) /\
    b = negb (bool_decide (ref (deref mig) ∈ identities (migs (manager w)))).
Proof.
  destruct (RegisterMig_run pkg cloud mig w) as (w' & Hrun & Hm & _).
  eexists _, w'. split; [exact Hrun|]. rewrite Hm. simpl.
  rewrite registered_updated. repeat split.
  by destruct (bool_decide _).
Qed.

(** Registering a group whose identity is new leaves every record as it
    is and appends the record of the group, with an empty base name. *)
Theorem RegisterMig_new_identity pkg cloud mig w :
  ref (deref mig) ∉ identities (migs (manager w)) ->
  exists w',
    RegisterMig pkg cloud mig w = (Ret true, w') /\
    migs (manager w') =
      migs (manager w) ++ [{| config := mig; basename := "" |}].
Proof.
  intros Hnew.
  destruct (RegisterMig_run pkg cloud mig w) as (w' & Hrun & Hm & _).
  exists w'. rewrite Hrun, Hm. simpl.
  rewrite registered_updated, updated_absent by done.
  by rewrite bool_decide_eq_false_2.
Qed.

Lemma RegisterMig_new_identity_witness :
  (ref (deref Demo.g2) ∉ identities (migs (manager Demo.namedGroup))) /\
  exists w',
    RegisterMig Demo.package Demo.downCloud Demo.g2 Demo.namedGroup
      = (Ret true, w') /\
    migs (manager w') =
      migs (manager Demo.namedGroup) ++ [{| config := Demo.g2; basename := "" |}].
Proof.
  assert (ref (deref Demo.g2) ∉ identities (migs (manager Demo.namedGroup)))
    as Hnew.
  { intros Hin. apply list_elem_of_singleton in Hin. discriminate Hin. }
  split; [exact Hnew|].
  exact (RegisterMig_new_identity Demo.package Demo.downCloud Demo.g2
           Demo.namedGroup Hnew).
Defined.

(** X2. Registering the same group twice in a row is registering it once:
    the second call returns false and leaves the registry of the first. *)
Theorem RegisterMig_twice pkg cloud mig w :
  exists b w1 w2,
    RegisterMig pkg cloud mig w = (Ret b, w1) /\
    RegisterMig pkg cloud mig w1 = (Ret false, w2) /\
    migs (manager w2) = migs (manager w1).
Proof.
  destruct (RegisterMig_run pkg cloud mig w) as (w1 & Hrun1 & Hm1 & _).
  assert (ref (deref mig) ∈ identities (migs (manager w1))) as Hin.
  { rewrite Hm1. simpl. rewrite registered_identities.
    destruct (bool_decide (ref (deref mig) ∈ identities (migs (manager w))))
      eqn:Hold; [by apply bool_decide_eq_true in Hold|].
    apply elem_of_app. right. by apply list_elem_of_singleton. }
  destruct (RegisterMig_run pkg cloud mig w1) as (w2 & Hrun2 & Hm2 & _).
  eexists _, w1, w2. split; [exact Hrun1|].
  rewrite Hrun2, bool_decide_eq_true_2 by done. split; [done|].
  rewrite Hm2. simpl. rewrite registered_updated.
  rewrite bool_decide_eq_true_2, app_nil_r by done.
  rewrite Hm1. simpl. rewrite registered_updated, fmap_app, <- list_fmap_compose.
  f_equal.
  - apply list_fmap_ext. intros i info _. exact (updated_twice mig info).
  - destruct (bool_decide _); [done|].
    rewrite fmap_cons. unfold updated at 1. by rewrite decide_True.
Qed.

(** X3. [RegisterMig] keeps the registry free of duplicate identities. *)
Theorem RegisterMig_keeps_NoDup pkg cloud mig w :
  NoDup (identities (migs (manager w))) ->
  NoDup (identities (migs (manager (RegisterMig pkg cloud mig w).2))) /\
  ref (deref mig) ∈ identities (migs (manager (RegisterMig pkg cloud mig w).2)).
Proof.
  intros Hnd.
  destruct (RegisterMig_run pkg cloud mig w) as (w' & -> & Hm & _).
  simpl. rewrite Hm. simpl. rewrite registered_identities.
  case_bool_decide as Hin; [done|]. split.
  - apply NoDup_app. split; [done|]. split; [|apply NoDup_singleton].
    intros g Hg Hg'. apply list_elem_of_singleton in Hg'. by subst.
  - apply elem_of_app. right. by apply list_elem_of_singleton.
Qed.

Lemma RegisterMig_keeps_NoDup_witness :
  NoDup (identities (migs (manager Demo.twoGroups))) /\
  NoDup (identities
           (migs (manager (RegisterMig Demo.package Demo.downCloud Demo.g1'
                                       Demo.twoGroups).2))).
Proof.
  assert (NoDup (identities (migs (manager Demo.twoGroups)))) as Hnd.
  { apply (bool_decide_unpack _). vm_compute. exact I. }
  split; [exact Hnd|].
  exact (proj1 (RegisterMig_keeps_NoDup Demo.package Demo.downCloud Demo.g1'
                  Demo.twoGroups Hnd)).
Defined.

(** ** Discovering the node pools *)

Lemma setMigs_setMigs l1 l2 m : setMigs l1 (setMigs l2 m) = setMigs l1 m.
Proof. done. Qed.

Lemma setMigs_same m : setMigs (migs m) m = m.
Proof. by destruct m. Qed.

Lemma registered_all_app ms1 ms2 l :
  registered_all (ms1 ++ ms2) l = registered_all ms2 (registered_all ms1 l).
Proof. revert l. induction ms1 as [|m rest IH]; intros l; simpl; [done|apply IH]. Qed.

Lemma registered_all_identities ms : forall l,
  exists extra, identities (registered_all ms l) = identities l ++ extra.
Proof.
  induction ms as [|m rest IH]; intros l; simpl.
  - exists []. by rewrite app_nil_r.
  - destruct (IH (registered m l)) as [extra ->].
    rewrite registered_identities. destruct (bool_decide _).
    + by exists extra.
    + exists (ref (deref m) :: extra). by rewrite <- app_assoc.
Qed.

Lemma registered_NoDup m l :
  NoDup (identities l) -> NoDup (identities (registered m l)).
Proof.
  intros Hnd. rewrite registered_identities.
  case_bool_decide as Hin; [done|].
  apply NoDup_app. split; [done|]. split; [|apply NoDup_singleton].
  intros g Hg Hg'. apply list_elem_of_singleton in Hg'. by subst.
Qed.

Lemma registered_all_NoDup ms : forall l,
  NoDup (identities l) -> NoDup (identities (registered_all ms l)).
Proof.
  induction ms as [|m rest IH]; intros l Hnd; simpl; [done|].
  by apply IH, registered_NoDup.
Qed.

Lemma registered_all_records ms : forall l info,
  info ∈ registered_all ms l -> info ∈ l \/ config info ∈ ms.
Proof.
  induction ms as [|m rest IH]; intros l info Hin; simpl in *; [by left|].
  destruct (IH _ _ Hin) as [Hreg|Hrest].
  - destruct (registered_records _ _ _ Hreg) as [[_ ->]|[_ ?]].
    + right. by left.
    + by left.
  - right. by right.
Qed.

Lemma registered_all_in ms : forall l m,
  m ∈ ms -> ref (deref m) ∈ identities (registered_all ms l).
Proof.
  induction ms as [|x rest IH]; intros l m Hin; simpl.
  - by apply elem_of_nil in Hin.
  - apply elem_of_cons in Hin as [->|Hin]; [|by apply IH].
    destruct (registered_all_identities rest (registered x l)) as [extra ->].
    apply elem_of_app. left. rewrite registered_identities.
    case_bool_decide as Hold; [done|].
    apply elem_of_app. right. by apply list_elem_of_singleton.
Qed.

Section DiscoveryFacts.

Context (pkg : Package) (cloud : Cloud).

(** The inner loop of [fetchAllNodePools] returns; it registers a group for
    every URL up to the first that does not parse. *)
Lemma fetchAllNodePools_urls_run nodePool ap urls : forall w,
  (forall url, url ∈ urls -> url ∈ gke.InstanceGroupUrls nodePool) ->
  exists err w' ms,
    fetchAllNodePools_urls pkg cloud nodePool ap (pool_autoscaled nodePool)
                           urls w = (Ret err, w') /\
    manager w' = setMigs (registered_all ms (migs (manager w))) (manager w) /\
    no_mutation w w' /\
    Forall (built_from pkg nodePool) ms /\
    (err = None ->
     forall url, url ∈ urls ->
       exists p z n,
         parseGceUrl pkg url "instanceGroupManagers" = inr (p, z, n) /\
         exists m, m ∈ ms /\
                   ref (deref m) = {| Project := p; Zone := z; Name := n |}).
Proof.
  induction urls as [|url rest IH]; intros w Hsub; simpl.
  - exists None, w, []. simpl. rewrite setMigs_same.
    repeat split; try done; [apply no_mutation_refl|].
    intros _ url Hin. by apply elem_of_nil in Hin.
  - destruct (parseGceUrl pkg url "instanceGroupManagers")
      as [e|[[p z] n]] eqn:Eparse.
    { exists (Some (ErrWrongUrl e)), w, []. simpl. rewrite setMigs_same.
      repeat split; try done. apply no_mutation_refl. }
    unfold bind at 1, newMig.
    match goal with
    | |- context [bind (RegisterMig pkg cloud ?m) _ ?w1] =>
        set (mig := m); set (w1' := w1);
        destruct (RegisterMig_run pkg cloud mig w1')
          as (w2 & Hrun & Hm2 & Hc2 & _)
    end.
    unfold bind at 1. rewrite Hrun.
    destruct (IH w2) as (err & w' & ms & -> & Hm & Hmut & Hbuilt & Hall).
    { intros u Hu. apply Hsub. by right. }
    exists err, w', (mig :: ms). split; [done|]. split.
    { rewrite Hm, Hm2. done. }
    split.
    { eapply no_mutation_trans; [|exact Hmut].
      exists [GetMigTemplate (ref (deref mig))]. split; [exact Hc2|].
      by repeat constructor. }
    split.
    { constructor; [|done]. split; [done|]. split.
      - exists url. split; [apply Hsub; by left|]. done.
      - intros a Ha Hen. subst mig. simpl.
        unfold pool_autoscaled. rewrite Ha, Hen. done. }
    intros Herr u Hu. apply elem_of_cons in Hu as [->|Hu].
    + exists p, z, n. split; [done|]. exists mig. split; [by left|done].
    + destruct (Hall Herr u Hu) as (p' & z' & n' & Hp & m & Hin & Hid).
      exists p', z', n'. split; [done|]. exists m. split; [by right|done].
Qed.

Lemma fetchAllNodePools_pools_cons nodePool rest :
  fetchAllNodePools_pools pkg cloud (nodePool :: rest) =
  if negb (pool_autoprovisioned nodePool) && negb (pool_autoscaled nodePool)
  then fetchAllNodePools_pools pkg cloud rest
  else
    let* err :=
      fetchAllNodePools_urls pkg cloud nodePool (pool_autoprovisioned nodePool)
                             (pool_autoscaled nodePool)
                             (gke.InstanceGroupUrls nodePool) in
    match err with
    | Some e => ret (Some e)
    | None => fetchAllNodePools_pools pkg cloud rest
    end.
Proof. reflexivity. Qed.

(** The outer loop of [fetchAllNodePools]. *)
Lemma fetchAllNodePools_pools_run pools : forall w,
  exists err w' ms,
    fetchAllNodePools_pools pkg cloud pools w = (Ret err, w') /\
    manager w' = setMigs (registered_all ms (migs (manager w))) (manager w) /\
    no_mutation w w' /\
    Forall (fun m => exists nodePool,
                nodePool ∈ pools /\ built_from pkg nodePool m) ms /\
    (err = None ->
     forall nodePool url,
       nodePool ∈ pools ->
       pool_autoscaled nodePool = true ->
       url ∈ gke.InstanceGroupUrls nodePool ->
       exists p z n,
         parseGceUrl pkg url "instanceGroupManagers" = inr (p, z, n) /\
         exists m, m ∈ ms /\
                   ref (deref m) = {| Project := p; Zone := z; Name := n |}).
Proof.
  induction pools as [|nodePool rest IH]; intros w.
  - exists None, w, []. simpl. rewrite setMigs_same.
    repeat split; try done; [apply no_mutation_refl|].
    intros _ np url Hin. by apply elem_of_nil in Hin.
  - rewrite fetchAllNodePools_pools_cons.
    destruct (negb (pool_autoprovisioned nodePool)
              && negb (pool_autoscaled nodePool)) eqn:Eskip.
    { destruct (IH w) as (err & w' & ms & -> & Hm & Hmut & Hbuilt & Hall).
      exists err, w', ms. repeat split; try done.
      - eapply Forall_impl; [exact Hbuilt|].
        intros m (np & Hin & Hb). exists np. split; [by right|done].
      - intros Herr np url Hin Hasc Hurl.
        apply elem_of_cons in Hin as [->|Hin]; [|by eapply Hall].
        rewrite Hasc, andb_false_r in Eskip. done. }
    destruct (fetchAllNodePools_urls_run nodePool
                (pool_autoprovisioned nodePool)
                (gke.InstanceGroupUrls nodePool) w)
      as (err1 & w1 & ms1 & Hrun1 & Hm1 & Hmut1 & Hbuilt1 & Hall1); [done|].
    unfold bind. rewrite Hrun1.
    assert (Forall (fun m => exists np,
                        np ∈ nodePool :: rest /\ built_from pkg np m) ms1)
      as Hbuilt1'.
    { eapply Forall_impl; [exact Hbuilt1|].
      intros m Hb. exists nodePool. split; [by left|done]. }
    destruct err1 as [e|].
    { exists (Some e), w1, ms1. repeat split; try done. }
    destruct (IH w1) as (err & w' & ms & -> & Hm & Hmut & Hbuilt & Hall).
    exists err, w', (ms1 ++ ms). split; [done|]. split.
    { rewrite Hm, Hm1, registered_all_app. done. }
    split; [by eapply no_mutation_trans|]. split.
    { apply Forall_app. split; [done|].
      eapply Forall_impl; [exact Hbuilt|].
      intros m (np & Hin & Hb). exists np. split; [by right|done]. }
    intros Herr np url Hin Hasc Hurl.
    apply elem_of_cons in Hin as [->|Hin].
    + destruct (Hall1 eq_refl url Hurl) as (p & z & n & Hp & m & Hm' & Hid).
      exists p, z, n. split; [done|]. exists m. split; [|done].
      apply elem_of_app. by left.
    + destruct (Hall Herr np url Hin Hasc Hurl)
        as (p & z & n & Hp & m & Hm' & Hid).
      exists p, z, n. split; [done|]. exists m. split; [|done].
      apply elem_of_app. by right.
Qed.

End DiscoveryFacts.

Section DiscoveryProperties.

Context (pkg : Package) (cloud : Cloud).

(** In GKE mode [fetchAllNodePools] lists the node pools and, if the call
    succeeds, runs its loop on them. *)
Lemma fetchAllNodePools_run w :
  mode (manager w) = ModeGKE ->
  exists w1,
    manager w1 = manager w /\
    calls w1 =
      calls w ++ [NodePoolsList (projectId (manager w)) (zone (manager w))
                                (clusterName (manager w))] /\
    fetchAllNodePools pkg cloud w =
      match nodePoolsList cloud (length (calls w)) (projectId (manager w))
                          (zone (manager w)) (clusterName (manager w)) with
      | inl cause => (Ret (Some (ErrCollaborator cause)), w1)
      | inr pools => fetchAllNodePools_pools pkg cloud pools w1
      end.
Proof.
  intros Hmode.
  unfold fetchAllNodePools, assertGKE, bind, getManager, request, ret.
  rewrite Hmode. simpl.
  exists {| manager := manager w;
            calls := calls w ++
                     [NodePoolsList (projectId (manager w)) (zone (manager w))
                                    (clusterName (manager w))];
            clock := (clock w + latency cloud (length (calls w)))%N;
            glog := glog w; nextAddr := nextAddr w |}.
  split; [done|]. split; [done|].
  by destruct (nodePoolsList cloud _ _ _ _).
Qed.

Lemma fetchAllNodePools_panics w :
  mode (manager w) = ModeGCE ->
  exists msg, fetchAllNodePools pkg cloud w = (Panic msg, w).
Proof.
  intros Hmode. unfold fetchAllNodePools, assertGKE, bind, getManager, panic.
  rewrite Hmode. by eexists.
Qed.

(** X4. Outside GKE mode [fetchAllNodePools] panics at once: nothing is
    requested and the world is as before. *)
Theorem fetchAllNodePools_outside_GKE w :
  mode (manager w) = ModeGCE ->
  exists msg, fetchAllNodePools pkg cloud w = (Panic msg, w).
Proof.
  intros Hmode. unfold fetchAllNodePools, bind at 1.
  assert (assertGKE w = (Panic "This should run only in GKE mode", w)) as ->.
  { unfold assertGKE, bind, getManager, panic. by rewrite Hmode. }
  by eexists.
Qed.

(** When listing the node pools fails, [fetchAllNodePools] returns the
    error of the call; the manager is unchanged and the listing is the only
    request sent. *)
Theorem fetchAllNodePools_list_error w cause :
  mode (manager w) = ModeGKE ->
  nodePoolsList cloud (length (calls w)) (projectId (manager w))
                (zone (manager w)) (clusterName (manager w)) = inl cause ->
  exists w',
    fetchAllNodePools pkg cloud w = (Ret (Some (ErrCollaborator cause)), w') /\
    manager w' = manager w /\
    calls w' =
      calls w ++ [NodePoolsList (projectId (manager w)) (zone (manager w))
                                (clusterName (manager w))].
Proof.
  intros Hmode Hans.
  destruct (fetchAllNodePools_run w Hmode) as (w1 & Hm & Hc & ->).
  rewrite Hans. by exists w1.
Qed.

(** X5. Whatever its outcome, [fetchAllNodePools] only adds to the
    registry: the identities registered before are still there, in the
    same order and before the new ones, a registry without duplicate
    identities stays so, nothing of the manager but the registry
    changes and no request that changes the cloud is sent. *)
Theorem fetchAllNodePools_only_adds w :
  (exists extra,
      identities (migs (manager (fetchAllNodePools pkg cloud w).2)) =
      identities (migs (manager w)) ++ extra) /\
  (NoDup (identities (migs (manager w))) ->
   NoDup (identities (migs (manager (fetchAllNodePools pkg cloud w).2)))) /\
  manager (fetchAllNodePools pkg cloud w).2 =
    setMigs (migs (manager (fetchAllNodePools pkg cloud w).2)) (manager w) /\
  no_mutation w (fetchAllNodePools pkg cloud w).2.
Proof.
  destruct (mode (manager w)) eqn:Hmode.
  { destruct (fetchAllNodePools_panics w Hmode) as [msg ->]. simpl.
    split; [exists []; by rewrite app_nil_r|].
    split; [done|]. split; [by rewrite setMigs_same|apply no_mutation_refl]. }
  destruct (fetchAllNodePools_run w Hmode) as (w1 & Hm & Hc & ->).
  assert (no_mutation w w1) as Hmut1.
  { eexists. split; [exact Hc|]. by repeat constructor. }
  destruct (nodePoolsList cloud _ _ _ _) as [cause|pools]; simpl.
  { rewrite Hm. split; [exists []; by rewrite app_nil_r|].
    split; [done|]. split; [by rewrite setMigs_same|done]. }
  destruct (fetchAllNodePools_pools_run pkg cloud pools w1)
    as (err & w' & ms & -> & Hm' & Hmut & _).
  simpl. rewrite Hm', Hm. simpl.
  split; [apply registered_all_identities|].
  split; [apply registered_all_NoDup|].
  split; [done|]. by eapply no_mutation_trans.
Qed.

(** X6. Whatever its outcome, every record [fetchAllNodePools] leaves in
    the registry is a record that was there before or the record of a
    group built for one of the listed node pools: the group exists, its
    identity is parsed from an instance group URL of the pool, and its
    bounds are the minimum and maximum node count of the pool when the
    pool has autoscaling enabled. *)
Theorem fetchAllNodePools_records w info :
  info ∈ migs (manager (fetchAllNodePools pkg cloud w).2) ->
  info ∈ migs (manager w) \/
  exists pools nodePool,
    nodePoolsList cloud (length (calls w)) (projectId (manager w))
                  (zone (manager w)) (clusterName (manager w)) = inr pools /\
    nodePool ∈ pools /\
    built_from pkg nodePool (config info).
Proof.
  destruct (mode (manager w)) eqn:Hmode.
  { destruct (fetchAllNodePools_panics w Hmode) as [msg ->]. by left. }
  destruct (fetchAllNodePools_run w Hmode) as (w1 & Hm & Hc & ->).
  destruct (nodePoolsList cloud _ _ _ _) as [cause|pools]; simpl.
  { rewrite Hm. by left. }
  destruct (fetchAllNodePools_pools_run pkg cloud pools w1)
    as (err & w' & ms & -> & Hm' & _ & Hbuilt & _).
  simpl. rewrite Hm', Hm. simpl.
  intros [Hold|Hnew]%registered_all_records; [by left|right].
  rewrite Forall_forall in Hbuilt.
  destruct (Hbuilt _ Hnew) as (np & Hin & Hb). by exists pools, np.
Qed.

(** X7. When [fetchAllNodePools] returns nil, every instance group URL of
    every listed node pool with autoscaling enabled parses, and the
    identity it parses to is registered. *)
Theorem fetchAllNodePools_registers_autoscaled w pools nodePool url :
  (fetchAllNodePools pkg cloud w).1 = Ret None ->
  nodePoolsList cloud (length (calls w)) (projectId (manager w))
                (zone (manager w)) (clusterName (manager w)) = inr pools ->
  nodePool ∈ pools ->
  pool_autoscaled nodePool = true ->
  url ∈ gke.InstanceGroupUrls nodePool ->
  exists p z n,
    parseGceUrl pkg url "instanceGroupManagers" = inr (p, z, n) /\
    {| Project := p; Zone := z; Name := n |}
      ∈ identities (migs (manager (fetchAllNodePools pkg cloud w).2)).
Proof.
  intros Hret Hans Hpool Hasc Hurl.
  destruct (mode (manager w)) eqn:Hmode.
  { destruct (fetchAllNodePools_panics w Hmode) as [msg Hp].
    by rewrite Hp in Hret. }
  destruct (fetchAllNodePools_run w Hmode) as (w1 & Hm & Hc & Hrun).
  rewrite Hans in Hrun. rewrite Hrun in Hret |- *.
  destruct (fetchAllNodePools_pools_run pkg cloud pools w1)
    as (err & w' & ms & Hp & Hm' & _ & _ & Hall).
  rewrite Hp in Hret |- *. simpl in *. injection Hret as ->.
  destruct (Hall eq_refl nodePool url Hpool Hasc Hurl)
    as (p & z & n & Hparse & m & Hin & Hid).
  exists p, z, n. split; [done|].
  rewrite Hm'. simpl. rewrite <- Hid. by apply registered_all_in.
Qed.

End DiscoveryProperties.

Lemma fetchAllNodePools_records_witness :
  Samples.scaledRecord
    ∈ migs (manager (fetchAllNodePools Demo.package Demo.gkeCloud
                                       Samples.gkeWorld).2) /\
  (Samples.scaledRecord ∈ migs (manager Samples.gkeWorld) \/
   exists pools nodePool,
     nodePoolsList Demo.gkeCloud (length (calls Samples.gkeWorld))
                   (projectId (manager Samples.gkeWorld))
                   (zone (manager Samples.gkeWorld))
                   (clusterName (manager Samples.gkeWorld)) = inr pools /\
     nodePool ∈ pools /\
     built_from Demo.package nodePool (config Samples.scaledRecord)).
Proof.
  assert (Samples.scaledRecord
            ∈ migs (manager (fetchAllNodePools Demo.package Demo.gkeCloud
                                               Samples.gkeWorld).2)) as Hin.
  { vm_compute. constructor. }
  split; [exact Hin|].
  exact (fetchAllNodePools_records Demo.package Demo.gkeCloud
           Samples.gkeWorld Samples.scaledRecord Hin).
Defined.

Lemma fetchAllNodePools_outside_GKE_witness :
  mode (manager (Demo.newWorld (Demo.newManager ModeGCE))) = ModeGCE /\
  exists msg,
    fetchAllNodePools Demo.package Demo.gkeCloud
                      (Demo.newWorld (Demo.newManager ModeGCE))
      = (Panic msg, Demo.newWorld (Demo.newManager ModeGCE)).
Proof.
  split; [reflexivity|].
  apply (fetchAllNodePools_outside_GKE Demo.package Demo.gkeCloud
           (Demo.newWorld (Demo.newManager ModeGCE))).
  reflexivity.
Defined.

Lemma fetchAllNodePools_list_error_witness :
  mode (manager (Demo.newWorld (Demo.newManager ModeGKE))) = ModeGKE /\
  exists w',
    fetchAllNodePools Demo.package Demo.downCloud
                      (Demo.newWorld (Demo.newManager ModeGKE))
      = (Ret (Some (ErrCollaborator "unavailable")), w') /\
    manager w' = Demo.newManager ModeGKE.
Proof.
  split; [reflexivity|].
  destruct (fetchAllNodePools_list_error Demo.package Demo.downCloud
              (Demo.newWorld (Demo.newManager ModeGKE)) "unavailable"
              eq_refl eq_refl) as (w' & Hrun & Hm & _).
  exists w'. split; [exact Hrun | exact Hm].
Defined.

Lemma fetchAllNodePools_registers_autoscaled_witness :
  (fetchAllNodePools Demo.package Demo.gkeCloud
                     (Demo.newWorld (Demo.newManager ModeGKE))).1 = Ret None /\
  exists p z n,
    parseGceUrl Demo.package (Demo.groupUrl "g1") "instanceGroupManagers"
      = inr (p, z, n) /\
    {| Project := p; Zone := z; Name := n |}
      ∈ identities
          (migs (manager (fetchAllNodePools Demo.package Demo.gkeCloud
                            (Demo.newWorld (Demo.newManager ModeGKE))).2)).
Proof.
  split; [vm_compute; reflexivity|].
  apply (fetchAllNodePools_registers_autoscaled Demo.package Demo.gkeCloud
           (Demo.newWorld (Demo.newManager ModeGKE))
           [Demo.scaledPool; Demo.provisionedPool; Demo.plainPool]
           Demo.scaledPool (Demo.groupUrl "g1")).
  - vm_compute; reflexivity.
  - reflexivity.
  - constructor.
  - reflexivity.
  - constructor.
Defined.

(** ** What a regeneration puts in the cache *)

Section RegenerationFacts.

Context (pkg : Package) (cloud : Cloud).

Lemma regenerateCache_instances_ok mig instances : forall c c',
  regenerateCache_instances pkg mig instances c = inr c' ->
  (forall key, is_Some (c !! key) -> is_Some (c' !! key)) /\
  (forall inst,
      inst ∈ instances ->
      exists p z n,
        ParseInstanceUrl pkg (gce.Instance inst) = inr (p, z, n) /\
        is_Some (c' !! {| Project := p; Zone := z; Name := n |})) /\
  (forall key m,
      c' !! key = Some m ->
      c !! key = Some m \/
      (m = mig /\
       exists inst,
         inst ∈ instances /\
         ParseInstanceUrl pkg (gce.Instance inst) =
           inr (Project key, Zone key, Name key))).
Proof.
  induction instances as [|i rest IH]; intros c c' Hrun; simpl in Hrun.
  - injection Hrun as <-. split; [done|]. split.
    + intros inst Hin. by apply elem_of_nil in Hin.
    + intros key m Hm. by left.
  - destruct (ParseInstanceUrl pkg (gce.Instance i)) as [e|[[p z] n]] eqn:Ep;
      [done|].
    destruct (IH _ _ Hrun) as (Hkeep & Hall & Hfrom).
    split; [|split].
    + intros key Hk. apply Hkeep.
      destruct (decide ({| Project := p; Zone := z; Name := n |} = key))
        as [->|Hne].
      * rewrite lookup_insert_eq. by eexists.
      * by rewrite lookup_insert_ne.
    + intros inst [->|Hin]%elem_of_cons.
      * exists p, z, n. split; [done|]. apply Hkeep.
        rewrite lookup_insert_eq. by eexists.
      * by apply Hall.
    + intros key m Hm. destruct (Hfrom key m Hm) as [Hins|(-> & inst & Hin & Hp)].
      * destruct (decide ({| Project := p; Zone := z; Name := n |} = key))
          as [<-|Hne].
        -- rewrite lookup_insert_eq in Hins. injection Hins as <-.
           right. split; [done|]. exists i. split; [by left|done].
        -- rewrite lookup_insert_ne in Hins by done. by left.
      * right. split; [done|]. exists inst. split; [by right|done].
Qed.

(** A scan that succeeds: what it sent, which instances are in the map it
    built, and where the entries of this map come from. *)
Lemma regenerateCache_loop_ok snapshot : forall c w snap c' w',
  regenerateCache_loop pkg cloud snapshot c w = (Ret (snap, inr c'), w') ->
  calls w' = calls w ++ flat_map scan_requests snapshot /\
  (forall key, is_Some (c !! key) -> is_Some (c' !! key)) /\
  (forall j info,
      snapshot !! j = Some info ->
      exists instances,
        igmListManagedInstances cloud (length (calls w) + 2 * j + 1)
          (Project (identity info)) (Zone (identity info))
          (Name (identity info)) = inr instances /\
        forall inst,
          inst ∈ instances ->
          exists p z n,
            ParseInstanceUrl pkg (gce.Instance inst) = inr (p, z, n) /\
            is_Some (c' !! {| Project := p; Zone := z; Name := n |})) /\
  (forall key m,
      c' !! key = Some m ->
      c !! key = Some m \/
      exists j info instances inst,
        snapshot !! j = Some info /\
        config info = m /\
        igmListManagedInstances cloud (length (calls w) + 2 * j + 1)
          (Project (identity info)) (Zone (identity info))
          (Name (identity info)) = inr instances /\
        inst ∈ instances /\
        ParseInstanceUrl pkg (gce.Instance inst) =
          inr (Project key, Zone key, Name key)).
Proof.
  induction snapshot as [|info rest IH]; intros c w snap c' w' Hrun;
    simpl in Hrun.
  - unfold ret in Hrun. injection Hrun as <- <- <-. simpl.
    rewrite app_nil_r. split; [done|]. split; [done|]. split.
    + intros j info Hj. by rewrite lookup_nil in Hj.
    + intros key m Hm. by left.
  - unfold bind, request, ret in Hrun; simpl in Hrun.
    fold (identity info) in Hrun.
    destruct (igmGet cloud _ _ _ _) as [e|igm]; simpl in Hrun; [done|].
    rewrite length_app in Hrun; simpl in Hrun.
    destruct (igmListManagedInstances cloud (length (calls w) + 1) _ _ _)
      as [e|instances] eqn:El; simpl in Hrun; [done|].
    destruct (regenerateCache_instances pkg (config info) instances c)
      as [e|c1] eqn:Ei; simpl in Hrun; [done|].
    destruct (regenerateCache_instances_ok _ _ _ _ Ei)
      as (Hkeep1 & Hall1 & Hfrom1).
    match type of Hrun with
    | context [regenerateCache_loop pkg cloud rest c1 ?w2] =>
        destruct (regenerateCache_loop pkg cloud rest c1 w2)
          as [[[snap2 res2]|msg|] w3] eqn:Erest; simpl in Hrun; try done
    end.
    injection Hrun as <- -> <-.
    destruct (IH _ _ _ _ _ Erest) as (Hc & Hkeep & Hall & Hfrom).
    simpl in Hc, Hall, Hfrom. rewrite !length_app in Hall, Hfrom.
    simpl in Hall, Hfrom.
    split; [by rewrite Hc, <- !app_assoc|].
    split; [by intros key Hk; apply Hkeep, Hkeep1|].
    split.
    + intros [|j] info' Hj; simpl in Hj.
      * injection Hj as <-. exists instances.
        replace (length (calls w) + 2 * 0 + 1) with (length (calls w) + 1)
          by lia.
        split; [done|]. intros inst Hin.
        destruct (Hall1 inst Hin) as (p & z & n & Hp & Hs).
        exists p, z, n. split; [done|]. by apply Hkeep.
      * destruct (Hall j info' Hj) as (insts & Hl & Hi).
        exists insts. split; [|done].
        replace (length (calls w) + 2 * S j + 1)
          with (length (calls w) + 1 + 1 + 2 * j + 1) by lia. done.
    + intros key m Hm.
      destruct (Hfrom key m Hm) as [Hm1|(j & info' & insts & inst & Hj & Hcfg & Hl & Hin & Hp)].
      * destruct (Hfrom1 key m Hm1) as [?|(-> & inst & Hin & Hp)]; [by left|].
        right. exists 0, info, instances, inst.
        replace (length (calls w) + 2 * 0 + 1) with (length (calls w) + 1)
          by lia.
        done.
      * right. exists (S j), info', insts, inst.
        replace (length (calls w) + 2 * S j + 1)
          with (length (calls w) + 1 + 1 + 2 * j + 1) by lia. done.
Qed.

(** The requests of a scan, whatever its result, are the first requests of
    a full scan. *)
Lemma regenerateCache_loop_calls snapshot : forall c w,
  exists rs,
    calls (regenerateCache_loop pkg cloud snapshot c w).2 = calls w ++ rs /\
    rs `prefix_of` flat_map scan_requests snapshot.
Proof.
  induction snapshot as [|info rest IH]; intros c w; simpl.
  - exists []. by rewrite app_nil_r.
  - unfold bind, request, ret; simpl. fold (identity info).
    destruct (igmGet cloud _ _ _ _) as [e|igm]; simpl.
    { eexists [_]. split; [done|]. by eexists. }
    destruct (igmListManagedInstances cloud _ _ _ _) as [e|instances]; simpl.
    { eexists [_; _]. rewrite <- app_assoc. split; [done|]. by eexists. }
    destruct (regenerateCache_instances pkg _ instances c) as [e|c1]; simpl.
    { eexists [_; _]. rewrite <- app_assoc. split; [done|]. by eexists. }
    match goal with
    | |- context [regenerateCache_loop pkg cloud rest c1 ?w2] =>
        destruct (IH c1 w2) as (rs & Hc & [k Hk]);
          destruct (regenerateCache_loop pkg cloud rest c1 w2)
            as [[[snap2 res2]|msg|] w3]
    end; simpl in *;
      (eexists (_ :: _ :: rs); rewrite Hc, <- !app_assoc;
       split; [done|]; exists k; by rewrite Hk).
Qed.

End RegenerationFacts.

Section RegenerationProperties.

Context (pkg : Package) (cloud : Cloud).

(** A regeneration that returns nil: the scan it ran and the world it
    leaves. *)
Lemma regenerateCache_ok w w' :
  regenerateCache pkg cloud w = (Ret None, w') ->
  exists snap c w1,
    regenerateCache_loop pkg cloud (migs (manager w)) ∅ w
      = (Ret (snap, inr c), w1) /\
    w' = withManager (setMigCache c (manager w)) w1.
Proof.
  intros Hrun.
  destruct (regenerateCache_run pkg cloud w)
    as (snap & res & w1 & rs & Hloop & _ & _ & _ & _ & Hreg).
  rewrite Hreg in Hrun. destruct res as [e|c]; [done|].
  injection Hrun as <-. by exists snap, c, w1.
Qed.

(** X8. [regenerateCache] asks, for the records of the registry in order,
    for the instance group manager and then for its managed instances, and
    nothing else: the requests it sends are the first requests of this
    list, and all of them when it returns nil. *)
Theorem regenerateCache_requests w :
  exists rs,
    calls (regenerateCache pkg cloud w).2 = calls w ++ rs /\
    rs `prefix_of` flat_map scan_requests (migs (manager w)) /\
    ((regenerateCache pkg cloud w).1 = Ret None ->
     rs = flat_map scan_requests (migs (manager w))).
Proof.
  destruct (regenerateCache_run pkg cloud w)
    as (snap & res & w1 & rs & Hloop & _ & Hc & _ & _ & Hreg).
  destruct (regenerateCache_loop_calls pkg cloud (migs (manager w)) ∅ w)
    as (rs' & Hc' & Hpre).
  rewrite Hloop in Hc'. simpl in Hc'.
  assert (rs' = rs) as -> by (rewrite Hc in Hc'; by apply app_inv_head in Hc').
  exists rs. rewrite Hreg. destruct res as [e|c]; simpl.
  - by repeat split.
  - repeat split; try done. intros _.
    destruct (regenerateCache_loop_ok pkg cloud _ _ _ _ _ _ Hloop) as (Hfull & _).
    rewrite Hc in Hfull. by apply app_inv_head in Hfull.
Qed.

(** X9. After a regeneration that returned nil, the lookup of an instance
    the cloud listed for a registered group during the scan returns a
    group, without error and without touching the world: no request, no
    new regeneration. *)
Theorem lookup_after_regeneration w w' j info instances inst p z n :
  regenerateCache pkg cloud w = (Ret None, w') ->
  migs (manager w) !! j = Some info ->
  igmListManagedInstances cloud (length (calls w) + 2 * j + 1)
    (Project (identity info)) (Zone (identity info)) (Name (identity info))
    = inr instances ->
  inst ∈ instances ->
  ParseInstanceUrl pkg (gce.Instance inst) = inr (p, z, n) ->
  exists m,
    GetMigForInstance pkg cloud {| Project := p; Zone := z; Name := n |} w'
      = (Ret (Some m, None), w').
Proof.
  intros Hrun Hj Hlist Hin Hparse.
  destruct (regenerateCache_ok w w' Hrun) as (snap & c & w1 & Hloop & ->).
  destruct (regenerateCache_loop_ok pkg cloud _ _ _ _ _ _ Hloop)
    as (_ & _ & Hall & _).
  destruct (Hall j info Hj) as (instances' & Hlist' & Hcached).
  rewrite Hlist in Hlist'. injection Hlist' as <-.
  destruct (Hcached inst Hin) as (p' & z' & n' & Hparse' & [m Hm]).
  rewrite Hparse in Hparse'. injection Hparse' as <- <- <-.
  exists m. unfold GetMigForInstance, bind, getManager. simpl. by rewrite Hm.
Qed.

Lemma regenerateCache_entries_from_scan w w' key m :
  regenerateCache pkg cloud w = (Ret None, w') ->
  migCache (manager w') !! key = Some m ->
  exists j info instances inst,
    migs (manager w) !! j = Some info /\
    config info = m /\
    igmListManagedInstances cloud (length (calls w) + 2 * j + 1)
      (Project (identity info)) (Zone (identity info)) (Name (identity info))
      = inr instances /\
    inst ∈ instances /\
    ParseInstanceUrl pkg (gce.Instance inst) =
      inr (Project key, Zone key, Name key).
Proof.
  intros Hrun Hm.
  destruct (regenerateCache_ok w w' Hrun) as (snap & c & w1 & Hloop & ->).
  destruct (regenerateCache_loop_ok pkg cloud _ _ _ _ _ _ Hloop)
    as (_ & _ & _ & Hfrom).
  simpl in Hm. destruct (Hfrom key m Hm) as [Hempty|?]; [|done].
  by rewrite lookup_empty in Hempty.
Qed.

(** X10. After a regeneration that returned nil, every entry of the cache
    comes from the scan: the group is the config of a record of the
    registry, and the cloud listed the instance for this group during the
    scan. *)
Theorem regenerateCache_entries w w' key m :
  regenerateCache pkg cloud w = (Ret None, w') ->
  migCache (manager w') !! key = Some m ->
  exists j info instances inst,
    migs (manager w) !! j = Some info /\
    config info = m /\
    igmListManagedInstances cloud (length (calls w) + 2 * j + 1)
      (Project (identity info)) (Zone (identity info)) (Name (identity info))
      = inr instances /\
    inst ∈ instances /\
    ParseInstanceUrl pkg (gce.Instance inst) =
      inr (Project key, Zone key, Name key).
Proof.
  intros Hrun Hm.
  destruct (regenerateCache_ok w w' Hrun) as (snap & c & w1 & Hloop & ->).
  destruct (regenerateCache_loop_ok pkg cloud _ _ _ _ _ _ Hloop)
    as (_ & _ & _ & Hfrom).
  simpl in Hm. destruct (Hfrom key m Hm) as [Hempty|?]; [|done].
  by rewrite lookup_empty in Hempty.
Qed.

(** X11. A lookup that returned a group can be repeated: the second lookup
    returns the same group and leaves the world as it is. *)
Theorem GetMigForInstance_again instance w w' g :
  GetMigForInstance pkg cloud instance w = (Ret (Some g, None), w') ->
  GetMigForInstance pkg cloud instance w' = (Ret (Some g, None), w').
Proof.
  unfold GetMigForInstance, bind, getManager.
  destruct (migCache (manager w) !! instance) as [m|] eqn:Hhit.
  { intros Hrun. injection Hrun as -> <-. by rewrite Hhit. }
  rewrite getMigs_run, GetMigForInstance_loop_run.
  destruct (existsb _ _); [|done].
  destruct (regenerateCache pkg cloud w) as [[[e|]|msg|] w1]; try done.
  destruct (migCache (manager w1) !! instance) as [m|] eqn:Hnew; [|done].
  intros Hrun. injection Hrun as -> <-. by rewrite Hnew.
Qed.

(** X12. A group returned by a lookup that missed the cache is the config
    of a record of the registry, and the cloud listed the instance for this
    group during the lookup. *)
Theorem GetMigForInstance_miss_registered instance w w' g :
  migCache (manager w) !! instance = None ->
  GetMigForInstance pkg cloud instance w = (Ret (Some g, None), w') ->
  exists j info instances inst,
    migs (manager w) !! j = Some info /\
    config info = g /\
    igmListManagedInstances cloud (length (calls w) + 2 * j + 1)
      (Project (identity info)) (Zone (identity info)) (Name (identity info))
      = inr instances /\
    inst ∈ instances /\
    ParseInstanceUrl pkg (gce.Instance inst) =
      inr (Project instance, Zone instance, Name instance).
Proof.
  intros Hmiss. unfold GetMigForInstance, bind, getManager. rewrite Hmiss.
  rewrite getMigs_run, GetMigForInstance_loop_run.
  destruct (existsb _ _); [|done].
  destruct (regenerateCache pkg cloud w) as [[[e|]|msg|] w1] eqn:Hregen;
    try done.
  destruct (migCache (manager w1) !! instance) as [m|] eqn:Hnew; [|done].
  intros Hrun. injection Hrun as -> <-.
  by eapply regenerateCache_entries_from_scan.
Qed.

End RegenerationProperties.

Lemma lookup_after_regeneration_witness :
  (regenerateCache Demo.package Demo.calmCloud Demo.twoGroups).1 = Ret None /\
  exists m,
    GetMigForInstance Demo.package Demo.calmCloud (Demo.instance "b-1")
      (regenerateCache Demo.package Demo.calmCloud Demo.twoGroups).2
    = (Ret (Some m, None),
       (regenerateCache Demo.package Demo.calmCloud Demo.twoGroups).2).
Proof.
  split; [vm_compute; reflexivity|].
  apply (lookup_after_regeneration Demo.package Demo.calmCloud Demo.twoGroups
           (regenerateCache Demo.package Demo.calmCloud Demo.twoGroups).2
           1 {| config := Demo.g2; basename := "" |}
           [Demo.instanceUrl "b-1"] (Demo.instanceUrl "b-1") "p1" "z1" "b-1").
  - vm_compute; reflexivity.
  - vm_compute; reflexivity.
  - vm_compute; reflexivity.
  - constructor.
  - vm_compute; reflexivity.
Defined.

Lemma regenerateCache_entries_witness :
  (regenerateCache Demo.package Demo.calmCloud Demo.twoGroups).1 = Ret None /\
  exists j info,
    migs (manager Demo.twoGroups) !! j = Some info /\ config info = Demo.g1.
Proof.
  split; [vm_compute; reflexivity|].
  destruct (regenerateCache_entries Demo.package Demo.calmCloud Demo.twoGroups
              (regenerateCache Demo.package Demo.calmCloud Demo.twoGroups).2
              (Demo.instance "a-1") Demo.g1)
    as (j & info & _ & _ & Hj & Hc & _).
  - vm_compute; reflexivity.
  - vm_compute; reflexivity.
  - by exists j, info.
Defined.

Lemma GetMigForInstance_again_witness :
  (GetMigForInstance Demo.package Demo.calmCloud (Demo.instance "a-1")
                     Demo.twoGroups).1 = Ret (Some Demo.g1, None) /\
  GetMigForInstance Demo.package Demo.calmCloud (Demo.instance "a-1")
    (GetMigForInstance Demo.package Demo.calmCloud (Demo.instance "a-1")
                       Demo.twoGroups).2
  = (Ret (Some Demo.g1, None),
     (GetMigForInstance Demo.package Demo.calmCloud (Demo.instance "a-1")
                        Demo.twoGroups).2).
Proof.
  split; [vm_compute; reflexivity|].
  apply (GetMigForInstance_again Demo.package Demo.calmCloud
           (Demo.instance "a-1") Demo.twoGroups).
  vm_compute; reflexivity.
Defined.

Lemma GetMigForInstance_miss_registered_witness :
  migCache (manager Demo.twoGroups) !! Demo.instance "a-1" = None /\
  exists j info,
    migs (manager Demo.twoGroups) !! j = Some info /\ config info = Demo.g1.
Proof.
  split; [vm_compute; reflexivity|].
  destruct (GetMigForInstance_miss_registered Demo.package Demo.calmCloud
              (Demo.instance "a-1") Demo.twoGroups
              (GetMigForInstance Demo.package Demo.calmCloud
                 (Demo.instance "a-1") Demo.twoGroups).2 Demo.g1)
    as (j & info & _ & _ & Hj & Hc & _).
  - vm_compute; reflexivity.
  - vm_compute; reflexivity.
  - by exists j, info.
Defined.

(** ** Polling and resizing *)

Section PollerProperties.

Context (cloud : Cloud) (operation : gce.Operation) (project zone : string).

(** [waitForOp] returns; what its run satisfies. *)
Lemma waitForOp_polled w :
  exists err w' k,
    waitForOp cloud operation project zone w = (Ret err, w') /\
    k <= 50 /\
    polled cloud operation project zone (clock w) w err w' k.
Proof.
  destruct (waitForOp_loop_run cloud operation project zone waitForOp_fuel
              (clock w) w) as (err & w' & k & Hrun & Hk & Hp).
  - unfold waitForOp_fuel. lia.
  - unfold waitForOp_fuel, operationWaitTimeout, operationPollInterval. lia.
  - lia.
  - exists err, w', k. unfold waitForOp, bind, timeNow. rewrite Hrun.
    unfold waitForOp_fuel in Hk. split; [done|]. split; [lia|done].
Qed.

(** The loop of [waitForOp] stops at the first answer "DONE". *)
Lemma waitForOp_loop_stops fuel : forall start w err w',
  waitForOp_loop cloud fuel start operation project zone w = (Ret err, w') ->
  exists k,
    calls w' =
      calls w ++ replicate k (ZoneOperationsGet project zone (gce.Name operation)) /\
    nextAddr w' = nextAddr w /\
    ((clock w - start < operationWaitTimeout)%N -> 1 <= k) /\
    (forall i, S i < k ->
               done_at cloud project zone operation (length (calls w) + i) = false) /\
    (err = None ->
     1 <= k /\
     done_at cloud project zone operation (length (calls w) + (k - 1)) = true) /\
    (err <> None ->
     forall i, i < k ->
               done_at cloud project zone operation (length (calls w) + i) = false).
Proof.
  induction fuel as [|fuel IH]; intros start w err w' Hrun; [done|].
  simpl in Hrun. unfold bind at 1, timeNow in Hrun.
  destruct (N.ltb_spec (clock w - start) operationWaitTimeout) as [Hlt|Hge].
  2:{ unfold ret in Hrun. injection Hrun as <- <-. exists 0. simpl.
      rewrite app_nil_r. repeat split; try done; try lia;
        try (intros i Hi; lia); intros _ i Hi; lia. }
  unfold bind, request, timeSleep, logf, ret in Hrun; simpl in Hrun.
  pose proof (eq_refl (done_at cloud project zone operation (length (calls w))))
    as Hdone.
  unfold done_at at 1 in Hdone.
  assert (forall w2,
             calls w2 = calls w ++
                        [ZoneOperationsGet project zone (gce.Name operation)] ->
             nextAddr w2 = nextAddr w ->
             done_at cloud project zone operation (length (calls w)) = false ->
             waitForOp_loop cloud fuel start operation project zone w2
               = (Ret err, w') ->
             exists k,
               calls w' =
                 calls w ++ replicate k (ZoneOperationsGet project zone
                                           (gce.Name operation)) /\
               nextAddr w' = nextAddr w /\
               ((clock w - start < operationWaitTimeout)%N -> 1 <= k) /\
               (forall i, S i < k ->
                          done_at cloud project zone operation
                                  (length (calls w) + i) = false) /\
               (err = None ->
                1 <= k /\
                done_at cloud project zone operation
                        (length (calls w) + (k - 1)) = true) /\
               (err <> None ->
                forall i, i < k ->
                          done_at cloud project zone operation
                                  (length (calls w) + i) = false)) as Hnext.
  { intros w2 Hc2 Ha2 Hnot Hrest.
    destruct (IH _ _ _ _ Hrest) as (k & Hc & Ha & _ & Hbefore & Hnone & Hsome).
    assert (length (calls w2) = S (length (calls w))) as Hlen.
    { rewrite Hc2, length_app. simpl. lia. }
    rewrite Hlen in Hbefore, Hnone, Hsome.
    exists (S k). split; [by rewrite Hc, Hc2, <- app_assoc|].
    split; [congruence|]. split; [lia|]. split; [|split].
    - intros [|i] Hi.
      + by rewrite Nat.add_0_r.
      + rewrite Nat.add_succ_r. apply Hbefore. lia.
    - intros Herr. destruct (Hnone Herr) as [Hk Hd]. split; [lia|].
      replace (length (calls w) + (S k - 1))
        with (S (length (calls w)) + (k - 1)) by lia. done.
    - intros Herr [|i] Hi.
      + by rewrite Nat.add_0_r.
      + rewrite Nat.add_succ_r. apply (Hsome Herr). lia. }
  destruct (zoneOperationsGet cloud (length (calls w)) project zone
              (gce.Name operation)) as [cause|op]; simpl in Hrun.
  - eapply Hnext; [| |by symmetry|exact Hrun]; done.
  - destruct (String.eqb (gce.Status op) "DONE") eqn:Est; simpl in Hrun.
    + injection Hrun as <- <-. exists 1. simpl.
      repeat split; try done; try lia.
      by rewrite Nat.add_0_r, <- Hdone.
    + eapply Hnext; [| |by rewrite <- Hdone|exact Hrun]; done.
Qed.

(** X13. [waitForOp] sends at least one status request and stops at the
    first answer "DONE": when it returns nil the last request was answered
    "DONE" and none before; when it returns the timeout error none was.
    The manager is as before. *)
Theorem waitForOp_stops_at_first_done w :
  exists err w' k,
    waitForOp cloud operation project zone w = (Ret err, w') /\
    1 <= k /\
    calls w' =
      calls w ++ replicate k (ZoneOperationsGet project zone (gce.Name operation)) /\
    manager w' = manager w /\
    (forall i, S i < k ->
               done_at cloud project zone operation (length (calls w) + i) = false) /\
    match err with
    | None =>
        done_at cloud project zone operation (length (calls w) + (k - 1)) = true
    | Some _ =>
        done_at cloud project zone operation (length (calls w) + (k - 1)) = false
    end.
Proof.
  destruct (waitForOp_polled w) as (err & w' & k0 & Hrun & _ & Hm & _).
  exists err, w'.
  assert (waitForOp cloud operation project zone w =
          waitForOp_loop cloud waitForOp_fuel (clock w) operation project zone w)
    as Heq by reflexivity.
  rewrite Heq in Hrun.
  destruct (waitForOp_loop_stops waitForOp_fuel (clock w) w err w' Hrun)
    as (k & Hc & _ & Hk & Hbefore & Hnone & Hsome).
  assert (1 <= k) as Hk1.
  { apply Hk. unfold operationWaitTimeout. lia. }
  exists k. split; [rewrite Heq; exact Hrun|].
  split; [exact Hk1|]. split; [exact Hc|].
  split; [exact Hm|]. split; [exact Hbefore|].
  destruct err as [e|].
  - apply Hsome; [discriminate|lia].
  - apply Hnone. reflexivity.
Qed.

End PollerProperties.

Section ResizeProperties.

Context (cloud : Cloud).

(** X14. [SetMigSize] sends one resize request for the group.  If the
    request fails its error is returned and nothing else is sent;
    otherwise the returned operation is polled in the project and zone of
    the group, at most 50 times, and the result is nil exactly when a poll
    was answered "DONE" and the timeout error otherwise.  The manager is
    as before. *)
Theorem SetMigSize_requests mig size w :
  let r := ref (deref mig) in
  exists err w',
    SetMigSize cloud mig size w = (Ret err, w') /\
    manager w' = manager w /\
    match igmResize cloud (length (calls w)) (Project r) (Zone r) (Name r) size
    with
    | inl cause =>
        err = Some (ErrCollaborator cause) /\
        calls w' = calls w ++ [IgmResize (Project r) (Zone r) (Name r) size]
    | inr op =>
        exists k,
          k <= 50 /\
          calls w' =
            calls w ++
            IgmResize (Project r) (Zone r) (Name r) size ::
            replicate k (ZoneOperationsGet (Project r) (Zone r) (gce.Name op)) /\
          (err = None \/
           err = Some (ErrOperationTimeout (gce.Name op) (gce.TargetLink op))) /\
          (err = None <->
           exists i,
             i < k /\
             done_at cloud (Project r) (Zone r) op (S (length (calls w)) + i)
               = true)
    end.
Proof.
  intros r. unfold SetMigSize, bind, request. fold r. simpl.
  destruct (igmResize cloud (length (calls w)) (Project r) (Zone r) (Name r) size)
    as [cause|op].
  { eexists _, _. split; [reflexivity|]. by repeat split. }
  match goal with
  | |- context [waitForOp cloud op ?p ?z ?w1] =>
      destruct (waitForOp_polled cloud op p z w1)
        as (err & w' & k & -> & Hk & Hm & Hc & _ & Hcases & Hiff & _)
  end.
  simpl in *. rewrite length_app in Hiff. simpl in Hiff.
  rewrite Nat.add_1_r in Hiff.
  exists err, w'. split; [done|]. split; [done|].
  exists k. rewrite Hc, <- app_assoc.
  split; [exact Hk|]. split; [reflexivity|]. split; [exact Hcases|exact Hiff].
Qed.

End ResizeProperties.

(** ** More on deleting instances *)

Lemma setMigCache_setMigCache c1 c2 m :
  setMigCache c2 (setMigCache c1 m) = setMigCache c2 m.
Proof. done. Qed.

Section DeleteProperties.

Context (pkg : Package) (cloud : Cloud).

Lemma GetMigForInstance_hit instance m w :
  migCache (manager w) !! instance = Some m ->
  GetMigForInstance pkg cloud instance w = (Ret (Some m, None), w).
Proof.
  intros Hhit. unfold GetMigForInstance, bind, getManager. by rewrite Hhit.
Qed.

Lemma GetMigForInstance_frame instance w :
  exists c,
    manager (GetMigForInstance pkg cloud instance w).2
    = setMigCache c (manager w).
Proof.
  unfold GetMigForInstance, bind, getManager.
  destruct (migCache (manager w) !! instance).
  { exists (migCache (manager w)). by rewrite setMigCache_same. }
  rewrite getMigs_run, GetMigForInstance_loop_run.
  destruct (existsb _ _).
  2:{ exists (migCache (manager w)). by rewrite setMigCache_same. }
  destruct (regenerateCache_run pkg cloud w)
    as (snap & res & w1 & rs & _ & Hm & _ & _ & _ & ->).
  destruct res as [e|c]; simpl.
  - exists (migCache (manager w)). by rewrite Hm, setMigCache_same.
  - exists c. by destruct (c !! instance).
Qed.

Lemma DeleteInstances_check_frame common instances : forall w,
  exists c,
    manager (DeleteInstances_check pkg cloud common instances w).2
    = setMigCache c (manager w).
Proof.
  induction instances as [|instance rest IH]; intros w; simpl.
  - exists (migCache (manager w)). by rewrite setMigCache_same.
  - destruct (GetMigForInstance_frame instance w) as [c1 Hc1].
    unfold bind.
    destruct (GetMigForInstance pkg cloud instance w)
      as [[[mig [e|]]|msg|] w1]; simpl in *; try (by exists c1).
    destruct (negb (ptr_eqb mig common)); simpl; [by exists c1|].
    destruct (IH w1) as [c2 Hc2]. exists c2.
    by rewrite Hc2, Hc1.
Qed.

(** X15. Whatever its outcome, [DeleteInstances] leaves the registry as it
    is; of the manager only the cache may have changed. *)
Theorem DeleteInstances_keeps_registry instances w :
  migs (manager (DeleteInstances pkg cloud instances w).2) = migs (manager w) /\
  exists c,
    manager (DeleteInstances pkg cloud instances w).2
    = setMigCache c (manager w).
Proof.
  assert (exists c, manager (DeleteInstances pkg cloud instances w).2
                    = setMigCache c (manager w)) as [c Hc].
  { destruct instances as [|first rest].
    { exists (migCache (manager w)). simpl. by rewrite setMigCache_same. }
    unfold DeleteInstances, bind at 1.
    destruct (GetMigForInstance_frame first w) as [c1 Hc1].
    destruct (GetMigForInstance pkg cloud first w)
      as [[[common [e|]]|msg|] w1]; cbn [snd] in Hc1;
      try (exists c1; exact Hc1).
    unfold bind at 1.
    destruct (DeleteInstances_check_frame common (first :: rest) w1)
      as [c2 Hc2].
    destruct (DeleteInstances_check pkg cloud common (first :: rest) w1)
      as [[[e|]|msg|] w2]; cbn [snd] in Hc2;
      try (exists c2; simpl; by rewrite Hc2, Hc1).
    destruct common as [common|];
      [|exists c2; simpl; by rewrite Hc2, Hc1].
    unfold bind, request; simpl.
    destruct (igmDeleteInstances cloud _ _ _ _ _) as [cause|op]; simpl;
      [exists c2; by rewrite Hc2, Hc1|].
    match goal with
    | |- context [waitForOp cloud op ?p ?z ?w3] =>
        destruct (waitForOp_polled cloud op p z w3)
          as (err & w' & k & -> & _ & Hm & _)
    end.
    simpl in *. exists c2. by rewrite Hm, Hc2, Hc1. }
  split; [by rewrite Hc|by exists c].
Qed.

Lemma DeleteInstances_check_cached common instances w :
  Forall (fun i => exists m, migCache (manager w) !! i = Some m /\
                             ptr_eqb (Some m) common = true) instances ->
  DeleteInstances_check pkg cloud common instances w = (Ret None, w).
Proof.
  induction 1 as [|i rest (m & Hhit & Heq) _ IH]; simpl; [done|].
  unfold bind. rewrite (GetMigForInstance_hit i m w Hhit), Heq. simpl.
  exact IH.
Qed.

(** X16. When the cache has every instance of a non-empty list under
    groups at the address of the group of the first, [DeleteInstances]
    looks nothing up in the cloud: its first request is the delete request,
    for the group of the first instance and with the URLs of all the
    instances in order; what follows are status requests for the operation
    the cloud returned, at most 50 and nothing else, and none if the
    delete request fails, whose error is then returned.  The manager is as
    before. *)
Theorem DeleteInstances_cached first rest c w :
  migCache (manager w) !! first = Some c ->
  Forall (fun i => exists m, migCache (manager w) !! i = Some m /\
                             addr m = addr c) rest ->
  exists err w' rs,
    DeleteInstances pkg cloud (first :: rest) w = (Ret err, w') /\
    manager w' = manager w /\
    calls w' =
      calls w ++
      IgmDeleteInstances (Project (ref (deref c))) (Zone (ref (deref c)))
                         (Name (ref (deref c)))
                         (instanceUrls pkg (first :: rest)) :: rs /\
    Forall (fun r => mutating r = false) rs /\
    (forall cause,
        igmDeleteInstances cloud (length (calls w))
          (Project (ref (deref c))) (Zone (ref (deref c)))
          (Name (ref (deref c))) (instanceUrls pkg (first :: rest))
          = inl cause ->
        err = Some (ErrCollaborator cause) /\ rs = []) /\
    (forall op,
        igmDeleteInstances cloud (length (calls w))
          (Project (ref (deref c))) (Zone (ref (deref c)))
          (Name (ref (deref c))) (instanceUrls pkg (first :: rest))
          = inr op ->
        exists k,
          k <= 50 /\
          rs = replicate k (ZoneOperationsGet (Project (ref (deref c)))
                                              (Zone (ref (deref c)))
                                              (gce.Name op))).
Proof.
  intros Hfirst Hrest.
  unfold DeleteInstances, bind at 1.
  rewrite (GetMigForInstance_hit first c w Hfirst).
  unfold bind at 1. rewrite DeleteInstances_check_cached.
  2:{ constructor.
      - exists c. split; [done|]. simpl. apply Nat.eqb_refl.
      - eapply Forall_impl; [exact Hrest|].
        intros i (m & Hm & Ha). exists m. split; [done|]. simpl.
        by apply Nat.eqb_eq. }
  unfold bind, request; simpl. fold (instanceUrls pkg (first :: rest)).
  destruct (igmDeleteInstances cloud _ _ _ _ _) as [cause|op] eqn:Eans; simpl.
  { eexists _, _, []. split; [reflexivity|]. simpl.
    split; [done|]. split; [done|]. split; [constructor|]. split.
    - intros cause' Hc. by injection Hc as <-.
    - intros op Hop. discriminate Hop. }
  match goal with
  | |- context [waitForOp cloud op ?p ?z ?w3] =>
      destruct (waitForOp_polled cloud op p z w3)
        as (err & w' & k & -> & Hk & Hm & Hc & _)
  end.
  simpl in *. eexists err, w', _. split; [reflexivity|].
  split; [done|]. rewrite Hc, <- app_assoc. split; [reflexivity|].
  split; [by apply Forall_replicate|]. split.
  - intros cause Hcause. discriminate Hcause.
  - intros op' Hop. injection Hop as <-. by exists k.
Qed.

(** X17. When the cache has the instances of the list up to one that it
    has under a group at another address than the group of the first,
    [DeleteInstances] returns the error about instances of different
    groups and the world is as before: nothing was requested. *)
Theorem DeleteInstances_cached_other_group first rest c pre i post m w :
  migCache (manager w) !! first = Some c ->
  first :: rest = pre ++ i :: post ->
  Forall (fun i' => exists m', migCache (manager w) !! i' = Some m' /\
                               addr m' = addr c) pre ->
  migCache (manager w) !! i = Some m ->
  addr m <> addr c ->
  DeleteInstances pkg cloud (first :: rest) w = (Ret (Some ErrNotSameMig), w).
Proof.
  intros Hfirst Hsplit Hpre Hi Hne.
  unfold DeleteInstances, bind at 1.
  rewrite (GetMigForInstance_hit first c w Hfirst).
  unfold bind at 1. rewrite Hsplit. clear Hsplit.
  assert (DeleteInstances_check pkg cloud (Some c) (pre ++ i :: post) w
          = (Ret (Some ErrNotSameMig), w)) as ->; [|done].
  induction Hpre as [|i' pre' (m' & Hm' & Ha) _ IH]; simpl.
  - unfold bind. rewrite (GetMigForInstance_hit i m w Hi). simpl.
    apply Nat.eqb_neq in Hne. by rewrite Hne.
  - unfold bind. rewrite (GetMigForInstance_hit i' m' w Hm'). simpl.
    apply Nat.eqb_eq in Ha. rewrite Ha. simpl. exact IH.
Qed.



End DeleteProperties.

Lemma DeleteInstances_cached_witness :
  migCache (manager Samples.cachedWorld) !! Demo.instance "a-1" = Some Demo.g1 /\
  exists err w' rs,
    DeleteInstances Demo.package Demo.calmCloud
                    [Demo.instance "a-1"; Demo.instance "a-2"]
                    Samples.cachedWorld = (Ret err, w') /\
    calls w' =
      calls Samples.cachedWorld ++
      IgmDeleteInstances "p1" "z1" "g1"
        (instanceUrls Demo.package [Demo.instance "a-1"; Demo.instance "a-2"])
      :: rs.
Proof.
  assert (migCache (manager Samples.cachedWorld) !! Demo.instance "a-1"
          = Some Demo.g1) as Hfirst by (vm_compute; reflexivity).
  split; [exact Hfirst|].
  destruct (DeleteInstances_cached Demo.package Demo.calmCloud
              (Demo.instance "a-1") [Demo.instance "a-2"] Demo.g1
              Samples.cachedWorld Hfirst)
    as (err & w' & rs & Hrun & _ & Hc & _).
  - constructor; [|constructor]. exists Demo.g1.
    split; [vm_compute; reflexivity | reflexivity].
  - exists err, w', rs. split; [exact Hrun | exact Hc].
Defined.

Lemma DeleteInstances_cached_other_group_witness :
  migCache (manager Samples.cachedWorld) !! Demo.instance "a-1" = Some Demo.g1 /\
  migCache (manager Samples.cachedWorld) !! Demo.instance "b-1" = Some Demo.g2 /\
  addr Demo.g2 <> addr Demo.g1 /\
  DeleteInstances Demo.package Demo.calmCloud
                  [Demo.instance "a-1"; Demo.instance "b-1"]
                  Samples.cachedWorld
    = (Ret (Some ErrNotSameMig), Samples.cachedWorld).
Proof.
  assert (migCache (manager Samples.cachedWorld) !! Demo.instance "a-1"
          = Some Demo.g1) as Hfirst by (vm_compute; reflexivity).
  assert (migCache (manager Samples.cachedWorld) !! Demo.instance "b-1"
          = Some Demo.g2) as Hother by (vm_compute; reflexivity).
  assert (addr Demo.g2 <> addr Demo.g1) as Hne by (simpl; lia).
  split; [exact Hfirst|]. split; [exact Hother|]. split; [exact Hne|].
  apply (DeleteInstances_cached_other_group Demo.package Demo.calmCloud
           (Demo.instance "a-1") [Demo.instance "b-1"] Demo.g1
           [Demo.instance "a-1"] (Demo.instance "b-1") [] Demo.g2
           Samples.cachedWorld Hfirst eq_refl).
  - constructor; [|constructor]. exists Demo.g1. split; [exact Hfirst|reflexivity].
  - exact Hother.
  - exact Hne.
Defined.


(** ** The nodes of a group *)

Section NodesProperties.

Context (pkg : Package) (cloud : Cloud).

Lemma GetMigNodes_loop_run instances : forall result,
  match GetMigNodes_loop pkg instances result with
  | (out, Some _) => out = []
  | (out, None) =>
      exists names, out = result ++ names /\
                    Forall2 (nodeName pkg) instances names
  end.
Proof.
  induction instances as [|inst rest IH]; intros result; simpl.
  - exists []. by rewrite app_nil_r.
  - destruct (ParseInstanceUrl pkg (gce.Instance inst)) as [e|[[p z] n]] eqn:Ep;
      [done|].
    specialize (IH (result ++ ["gce://" +:+ p +:+ "/" +:+ z +:+ "/" +:+ n])).
    destruct (GetMigNodes_loop pkg rest _) as [out [e|]]; [done|].
    destruct IH as (names & -> & Hnames).
    exists (("gce://" +:+ p +:+ "/" +:+ z +:+ "/" +:+ n) :: names).
    split; [by rewrite <- app_assoc|].
    constructor; [|done]. by exists p, z, n.
Qed.

(** X19. [GetMigNodes] sends one request, for the managed instances of the
    group, and leaves the manager as it is.  It returns all or nothing:
    with an error the list is empty; without, the cloud answered with the
    instances and the list has, in the same order, one name
    [gce://project/zone/name] for each of them. *)
Theorem GetMigNodes_all_or_nothing mig w :
  let r := ref (deref mig) in
  exists result err w',
    GetMigNodes pkg cloud mig w = (Ret (result, err), w') /\
    manager w' = manager w /\
    calls w' =
      calls w ++ [IgmListManagedInstances (Project r) (Zone r) (Name r)] /\
    match err with
    | Some _ => result = []
    | None =>
        exists instances,
          igmListManagedInstances cloud (length (calls w))
            (Project r) (Zone r) (Name r) = inr instances /\
          Forall2 (nodeName pkg) instances result
    end.
Proof.
  intros r. unfold GetMigNodes, bind, request, ret. fold r. simpl.
  destruct (igmListManagedInstances cloud (length (calls w))
              (Project r) (Zone r) (Name r)) as [cause|instances].
  { eexists _, _, _. split; [reflexivity|]. by repeat split. }
  pose proof (GetMigNodes_loop_run instances []) as Hloop.
  destruct (GetMigNodes_loop pkg instances []) as [out [e|]].
  - eexists _, _, _. split; [reflexivity|]. by repeat split.
  - destruct Hloop as (names & -> & Hnames).
    eexists _, _, _. split; [reflexivity|]. simpl.
    split; [done|]. split; [done|]. by exists instances.
Qed.

End NodesProperties.

(** ** The project and zone of the machine *)

Lemma splitSlash_cons_noSlash p t :
  noSlash p = true ->
  Demo.splitSlash (p +:+ String (Ascii.ascii_of_nat 47) t)
  = p :: Demo.splitSlash t.
Proof.
  induction p as [|c p IH]; intros Hp.
  - simpl. done.
  - simpl in Hp. apply andb_prop in Hp as [Hc Hp].
    apply negb_true_iff in Hc.
    change ((String c p) +:+ String (Ascii.ascii_of_nat 47) t)
      with (String c (p +:+ String (Ascii.ascii_of_nat 47) t)).
    change (Demo.splitSlash (String c (p +:+ String (Ascii.ascii_of_nat 47) t)))
      with (let r := Demo.splitSlash (p +:+ String (Ascii.ascii_of_nat 47) t) in
            if Ascii.eqb c (Ascii.ascii_of_nat 47) then EmptyString :: r
            else match r with
                 | h :: t' => String c h :: t'
                 | [] => [String c EmptyString]
                 end).
    rewrite (IH Hp). simpl. by rewrite Hc.
Qed.

Lemma splitSlash_single p :
  noSlash p = true -> Demo.splitSlash p = [p].
Proof.
  induction p as [|c p IH]; intros Hp; [done|].
  simpl in Hp. apply andb_prop in Hp as [Hc Hp].
  apply negb_true_iff in Hc.
  change (Demo.splitSlash (String c p))
    with (let r := Demo.splitSlash p in
          if Ascii.eqb c (Ascii.ascii_of_nat 47) then EmptyString :: r
          else match r with
               | h :: t' => String c h :: t'
               | [] => [String c EmptyString]
               end).
  rewrite (IH Hp). simpl. by rewrite Hc.
Qed.

Lemma splitSlash_parts s :
  Demo.splitSlash s <> [] /\
  Forall (fun p => noSlash p = true) (Demo.splitSlash s) /\
  joinSlash (Demo.splitSlash s) = s.
Proof.
  induction s as [|c s (Hne & Hall & Hjoin)].
  - split; [done|]. split; [by repeat constructor|done].
  - change (Demo.splitSlash (String c s))
      with (let r := Demo.splitSlash s in
            if Ascii.eqb c (Ascii.ascii_of_nat 47) then EmptyString :: r
            else match r with
                 | h :: t' => String c h :: t'
                 | [] => [String c EmptyString]
                 end).
    simpl. destruct (Ascii.eqb c (Ascii.ascii_of_nat 47)) eqn:Hc.
    + apply Ascii.eqb_eq in Hc as ->.
      split; [done|]. split; [by constructor|].
      destruct (Demo.splitSlash s) as [|h t]; [done|].
      simpl in *. by rewrite Hjoin.
    + destruct (Demo.splitSlash s) as [|h t]; [done|].
      apply Forall_cons in Hall as [Hh Ht].
      split; [done|]. split.
      * constructor; [|done]. simpl. by rewrite Hc, Hh.
      * destruct t as [|h' t]; simpl in *; by rewrite <- Hjoin.
Qed.

(** X20. [getProjectAndZone] returns without error exactly when the
    metadata server gives the project id and answers the zone request with
    four parts separated by "/"; the zone returned is the fourth part (it
    has no "/") and the project is the project id. *)
Theorem getProjectAndZone_ok md project zone :
  getProjectAndZone md = (project, zone, None) <->
  exists a b c,
    metadataGet md "instance/zone" =
      inr (a +:+ "/" +:+ b +:+ "/" +:+ c +:+ "/" +:+ zone) /\
    noSlash a = true /\ noSlash b = true /\ noSlash c = true /\
    noSlash zone = true /\
    metadataProjectID md = inr project.
Proof.
  unfold getProjectAndZone. split.
  - destruct (metadataGet md "instance/zone") as [e|result]; [done|].
    destruct (splitSlash_parts result) as (_ & Hall & Hjoin).
    destruct (Demo.splitSlash result) as [|a [|b [|c [|z [|x rest]]]]];
      try done.
    simpl. destruct (metadataProjectID md) as [e|projectID]; [done|].
    intros Heq. injection Heq as -> ->.
    apply Forall_cons in Hall as [Ha Hall].
    apply Forall_cons in Hall as [Hb Hall].
    apply Forall_cons in Hall as [Hc Hall].
    apply Forall_cons in Hall as [Hz _].
    exists a, b, c. simpl in Hjoin. by rewrite Hjoin.
  - intros (a & b & c & -> & Ha & Hb & Hc & Hz & ->).
    change (a +:+ "/" +:+ b +:+ "/" +:+ c +:+ "/" +:+ zone)
      with (a +:+ String (Ascii.ascii_of_nat 47)
                    (b +:+ String (Ascii.ascii_of_nat 47)
                           (c +:+ String (Ascii.ascii_of_nat 47) zone))).
    rewrite !splitSlash_cons_noSlash, splitSlash_single by done.
    done.
Qed.

(** X21. When [getProjectAndZone] returns an error, the project and the
    zone it returns are empty; the error is the failure of one of the two
    metadata requests, or it reports the answer to the zone request, which
    then does not have four parts separated by "/". *)
Theorem getProjectAndZone_error md project zone e :
  getProjectAndZone md = (project, zone, Some e) ->
  project = "" /\ zone = "" /\
  match e with
  | MetadataFailed cause =>
      metadataGet md "instance/zone" = inl cause \/
      (metadataProjectID md = inl cause /\
       exists result,
         metadataGet md "instance/zone" = inr result /\
         length (Demo.splitSlash result) = 4)
  | UnexpectedResponse result =>
      metadataGet md "instance/zone" = inr result /\
      length (Demo.splitSlash result) <> 4
  end.
Proof.
  unfold getProjectAndZone.
  destruct (metadataGet md "instance/zone") as [cause|result].
  { intros Heq. injection Heq as <- <- <-. repeat split. by left. }
  destruct (Nat.eqb (length (Demo.splitSlash result)) 4) eqn:Hlen; simpl.
  - apply Nat.eqb_eq in Hlen.
    destruct (metadataProjectID md) as [cause|projectID]; [|done].
    intros Heq. injection Heq as <- <- <-. repeat split.
    right. split; [done|]. by exists result.
  - apply Nat.eqb_neq in Hlen.
    intros Heq. injection Heq as <- <- <-. by repeat split.
Qed.

Lemma getProjectAndZone_error_witness :
  getProjectAndZone
    {| metadataGet := fun _ => inr "us-central1-a";
       metadataProjectID := inr "p1" |}
  = ("", "", Some (UnexpectedResponse "us-central1-a")) /\
  length (Demo.splitSlash "us-central1-a") <> 4.
Proof.
  split; [reflexivity|].
  exact (proj2 (proj2 (proj2
    (getProjectAndZone_error
       {| metadataGet := fun _ => inr "us-central1-a";
          metadataProjectID := inr "p1" |}
       "" "" (UnexpectedResponse "us-central1-a") eq_refl)))).
Defined.
